(** * process_video: the per-frame orchestration loop and its JSON log

    A shallow embedding of [src/main.py].  The program is a straight
    pipeline around external collaborators (video decoder, face detector,
    emotion classifier, polar-plot renderer, OpenCV image and GUI calls).
    The collaborators are kept abstract: each one is a function on a hidden
    state [X] that may raise.  What the file owns is modelled concretely:
    the control flow, the file system it reads and writes, the JSON document
    and the order of the calls it makes, recorded as a list of events. *)

From Stdlib Require Import QArith Qround PrimFloat.
From stdpp Require Import gmap strings list fin_maps pretty.

Set Warnings "-register-all".

Local Open Scope string_scope.
Local Open Scope list_scope.
Local Open Scope Z_scope.

(** ** Python values that [json] can write and read back

    [json.dump] followed by [json.load] is the identity on these values:
    integers, floats (written with [repr]), strings, lists, and dicts with
    string keys kept in insertion order.  A file that holds the text of such
    a value is therefore modelled by the value itself. *)

Inductive pyval : Type :=
| PNone
| PBool (b : bool)
| PInt (n : Z)
| PFloat (f : float)
| PStr (s : string)
| PList (items : list pyval)
| PDict (entries : list (string * pyval)).

(** [d.get(k)] on an insertion-ordered dict. *)
Fixpoint dict_get (d : list (string * pyval)) (k : string) : option pyval :=
  match d with
  | [] => None
  | (k', v) :: rest => if String.eqb k' k then Some v else dict_get rest k
  end.

(** [d[k] = v]: replaces the value in place, a new key goes last. *)
Fixpoint dict_set (d : list (string * pyval)) (k : string) (v : pyval)
  : list (string * pyval) :=
  match d with
  | [] => [(k, v)]
  | (k', v') :: rest =>
      if String.eqb k' k then (k', v) :: rest else (k', v') :: dict_set rest k v
  end.

(** [dict.fromkeys(keys, v)]. *)
Definition dict_fromkeys (keys : list string) (v : pyval) : list (string * pyval) :=
  fold_left (fun d k => dict_set d k v) keys [].

(** [l[:-1]]. *)
Definition py_init {A} (l : list A) : list A := removelast l.

(** [str(n)] for an int. *)
Definition py_str (n : Z) : string := pretty n.

(** ** Exceptions *)

Inductive exn : Type :=
| FileNotFoundError (msg : string)
| FileExistsError (path : string)
| IsADirectoryError (path : string)
| RuntimeError (msg : string)
| JSONDecodeError
| AttributeError (msg : string)
| IndexError
| ZeroDivisionError
| OverflowError
| ExternalError (msg : string).

(** [records.setdefault(key, [])]: the dict after the call and the value
    it returns. *)
Definition py_setdefault (records : pyval) (key : string)
  : exn + (list (string * pyval) * pyval) :=
  match records with
  | PDict d =>
      match dict_get d key with
      | Some v => inr (d, v)
      | None => inr (dict_set d key (PList []), PList [])
      end
  | _ => inl (AttributeError "setdefault")
  end.

(** [value.append(x)]. *)
Definition py_append (value x : pyval) : exn + pyval :=
  match value with
  | PList items => inr (PList (items ++ [x]))
  | _ => inl (AttributeError "append")
  end.

(** [records.setdefault(key, []).append(x)]; the list lives inside the dict,
    so the dict sees the appended element. *)
Definition setdefault_append (records : pyval) (key : string) (x : pyval)
  : exn + pyval :=
  match py_setdefault records key with
  | inl e => inl e
  | inr (d, value) =>
      match py_append value x with
      | inl e => inl e
      | inr value' => inr (PDict (dict_set d key value'))
      end
  end.

(** ** Arithmetic of the plot resize

    [int(a / b)] on two ints.  True division of ints gives the binary64
    number nearest to the exact quotient, ties going to the even
    significand; it raises when the divisor is zero and when the rounded
    quotient is too large for a float, and underflows to zero.  A float is
    represented by the rational it denotes.  [int] then drops the fraction. *)

(** [floor (log2 (a / b))] for positive [a] and [b]. *)
Definition log2_quotient (a b : Z) : Z :=
  let d := Z.log2 a - Z.log2 b in
  if a * 2 ^ Z.max (- d) 0 <? b * 2 ^ Z.max d 0 then d - 1 else d.

(** The integer nearest to [n / d], the even one of two equally near. *)
Definition round_half_even (n d : Z) : Z :=
  let m := n `div` d in
  let r := n `mod` d in
  if 2 * r <? d then m
  else if d <? 2 * r then m + 1
  else if Z.even m then m else m + 1.

(** The number [m * 2 ^ e]. *)
Definition dyadic (m e : Z) : Q :=
  if 0 <=? e then inject_Z (m * 2 ^ e) else Qmake m (Z.to_pos (2 ^ (- e))).

(** The quotient of two positive ints rounded to 53 significant bits, or to
    a multiple of [2 ^ -1074] where it is subnormal: the significand and the
    exponent of its last bit. *)
Definition binary64_nearest (a b : Z) : Z * Z :=
  let e := Z.max (log2_quotient a b - 52) (-1074) in
  (round_half_even (a * 2 ^ Z.max (- e) 0) (b * 2 ^ Z.max e 0), e).

Definition py_truediv (a b : Z) : exn + Q :=
  if b =? 0 then inl ZeroDivisionError
  else if a =? 0 then inr (inject_Z 0)
  else
    let '(m, e) := binary64_nearest (Z.abs a) (Z.abs b) in
    if (0 <=? e) && (2 ^ 1024 <=? m * 2 ^ e) then inl OverflowError
    else inr (dyadic (Z.sgn a * Z.sgn b * m) e).

Definition py_int (q : Q) : Z := Z.quot (Qnum q) (Zpos (Qden q)).

(** ** Files *)

Inductive content : Type :=
| Text (raw : string)      (* text that [json.load] rejects *)
| Json (v : pyval).        (* the text of [v] *)

Inductive node : Type :=
| Dir
| File (c : content).

(** The regular file at a path, if any. *)
Definition regular (files : gmap string node) (p : string) : option content :=
  match files !! p with
  | Some (File c) => Some c
  | _ => None
  end.

(** Whether anything is at the path. *)
Definition exists_b (files : gmap string node) (p : string) : bool :=
  match files !! p with
  | Some _ => true
  | None => false
  end.

Section Model.

Context {X image : Type}.

(** ** Collaborators: every call reads and updates the hidden state and
    either returns or raises. *)

Definition call (A : Type) : Type := X → (exn + A) * X.

Record collaborators : Type := Collaborators {
  path_parent : string → string;                      (* Path(p).parent *)
  cv2_VideoCapture : string → call (option (list image));
                                   (* None: the backend cannot open it *)
  face_drawBbox : image → call image;
  emotion_labelEmotion : image → call (image * list (Z * pyval));
  visualize_visualize : pyval → pyval → call unit;
  visualize_plane : X → image;
  visualize_line_angles : X → list string;            (* keys, in order *)
  shape : image → N * N;                              (* rows, columns *)
  cv2_resize : image → Z * Z → call image;           (* dsize = (w, h) *)
  custom_concat : list image → call image;
  np_concatenate : list image → Z → call image;
  cv2_imshow : string → image → call unit;
  cv2_waitKey : Z → call Z;
  cv2_destroyAllWindows : call unit;
}.

(** ** Events: the calls the program makes, in order, with what the
    properties below need to see of their arguments and results. *)

Inductive event : Type :=
| EvPathExists (p : string)
| EvVideoCapture (p : string)
| EvIsOpened
| EvMakedirs (p : string)
| EvRead (ret : bool)
| EvDrawBbox
| EvLabelEmotion
| EvDetected (emots : list (Z * pyval))
| EvResize (src : image) (dsize : Z * Z)
| EvLineAngles
| EvVisualize (who probs : pyval)
| EvOsPathExists (p : string)
| EvFileRead (p : string)
| EvFileWrite (p : string) (before : option node) (after : pyval)
| EvCustomConcat (imgs : list image)
| EvNpConcatenate (imgs : list image)
| EvImshow (name : string) (img : image)
| EvWaitKey
| EvRelease
| EvDestroyAllWindows.

(** ** The world and the monad *)

Record world : Type := World {
  ext : X;                       (* collaborators' state *)
  fs : gmap string node;         (* paths that exist, as they are spelled *)
  cap_opened : bool;             (* cap.isOpened() *)
}.

Definition set_ext (x : X) (w : world) : world :=
  World x (fs w) (cap_opened w).
Definition set_fs (f : gmap string node) (w : world) : world :=
  World (ext w) f (cap_opened w).
Definition set_cap (b : bool) (w : world) : world :=
  World (ext w) (fs w) b.

(** A computation returns a value or raises; either way the world it has
    reached and the events it has produced are kept. *)
Definition M (A : Type) : Type := world → (exn + A) * world * list event.

#[export] Instance M_ret : MRet M := λ A a w, (inr a, w, []).

#[export] Instance M_bind : MBind M := λ A B f m w,
  match m w with
  | (inl e, w1, t1) => (inl e, w1, t1)
  | (inr a, w1, t1) =>
      match f a w1 with
      | (r, w2, t2) => (r, w2, t1 ++ t2)
      end
  end.

Definition raise {A} (e : exn) : M A := λ w, (inl e, w, []).

Definition emit (ev : event) : M unit := λ w, (inr tt, w, [ev]).

Definition lift {A} (r : exn + A) : M A := λ w, (r, w, []).

Definition extern {A} (ev : event) (f : call A) : M A := λ w,
  match f (ext w) with
  | (r, x) => (r, set_ext x w, [ev])
  end.

Definition attribute {A} (f : X → A) : M A := λ w, (inr (f (ext w)), w, []).

Variable C : collaborators.

(** ** File system calls *)

(** [Path(p).exists()]. *)
Definition Path_exists (p : string) : M bool := λ w,
  (inr (exists_b (fs w) p), w, [EvPathExists p]).

(** [os.path.exists(p)]. *)
Definition os_path_exists (p : string) : M bool := λ w,
  (inr (exists_b (fs w) p), w, [EvOsPathExists p]).

(** [os.makedirs(d, exist_ok=True)], at the one level of the model: creates
    the directory when the path is free, accepts an existing directory,
    refuses a regular file.  The call also creates the missing ancestors of
    [d] and fails under an ancestor that is a regular file; ancestors are
    not modelled, and no property below speaks of them. *)
Definition os_makedirs (d : string) : M unit := λ w,
  match fs w !! d with
  | Some Dir => (inr tt, w, [EvMakedirs d])
  | Some (File _) => (inl (FileExistsError d), w, [EvMakedirs d])
  | None => (inr tt, set_fs (<[d := Dir]> (fs w)) w, [EvMakedirs d])
  end.

(** [with open(p, "r") as f: json.load(f)]. *)
Definition open_r_json_load (p : string) : M pyval := λ w,
  match fs w !! p with
  | None => (inl (FileNotFoundError p), w, [EvFileRead p])
  | Some Dir => (inl (IsADirectoryError p), w, [EvFileRead p])
  | Some (File (Text _)) => (inl JSONDecodeError, w, [EvFileRead p])
  | Some (File (Json v)) => (inr v, w, [EvFileRead p])
  end.

(** [with open(p, "w") as f: json.dump(v, f, indent=4)]: the whole file is
    replaced by the text of [v]. *)
Definition open_w_json_dump (p : string) (v : pyval) : M unit := λ w,
  match fs w !! p with
  | Some Dir => (inl (IsADirectoryError p), w, [])
  | before =>
      (inr tt, set_fs (<[p := File (Json v)]> (fs w)) w, [EvFileWrite p before v])
  end.

(** ** The capture handle *)

Definition VideoCapture (p : string) : M (list image) := λ w,
  match cv2_VideoCapture C p (ext w) with
  | (inl e, x) => (inl e, set_ext x w, [EvVideoCapture p])
  | (inr None, x) => (inr [], set_cap false (set_ext x w), [EvVideoCapture p])
  | (inr (Some frames), x) =>
      (inr frames, set_cap true (set_ext x w), [EvVideoCapture p])
  end.

Definition cap_isOpened : M bool := λ w, (inr (cap_opened w), w, [EvIsOpened]).

Definition cap_release : M unit := λ w, (inr tt, set_cap false w, [EvRelease]).

(** ** The program *)

Definition resize (src : image) (dsize : Z * Z) : M image :=
  extern (EvResize src dsize) (cv2_resize C src dsize).

(** Lines 91-102: the logging step for one detected person. *)
Definition log_person (data_path : string) (person_idx : Z) (emot_probs : pyval)
  : M unit :=
  present ← os_path_exists data_path;
  _ ← (if negb present then open_w_json_dump data_path (PDict []) else mret tt);
  records ← open_r_json_load data_path;
  let key := py_str (person_idx + 1) in
  records ← lift (setdefault_append records key emot_probs);
  open_w_json_dump data_path records.

(** Lines 76-102: the body of the [for] loop; returns the resized plot. *)
Definition person_body (data_path : string) (num_persons : Z)
    (person_idx : Z) (emot_probs : pyval) : M image :=
  _ ← extern (EvVisualize (PInt person_idx) emot_probs)
        (visualize_visualize C (PInt person_idx) emot_probs);
  graph ← attribute (visualize_plane C);
  let '(g_h, g_w) := shape C graph in
  qw ← lift (py_truediv (Z.of_N g_w) (Z.max num_persons 1));
  qh ← lift (py_truediv (Z.of_N g_h) (Z.max num_persons 1));
  graph ← resize graph (py_int qw, py_int qh);
  _ ← log_person data_path person_idx emot_probs;
  mret graph.

(** Lines 75-102: the [for] loop over [emots.items()], appending to [graphs]. *)
Fixpoint for_persons (data_path : string) (num_persons : Z)
    (items : list (Z * pyval)) (graphs : list image) : M (list image) :=
  match items with
  | [] => mret graphs
  | (person_idx, emot_probs) :: rest =>
      graph ← person_body data_path num_persons person_idx emot_probs;
      for_persons data_path num_persons rest (graphs ++ [graph])
  end.

(** Lines 72-114: the plot image of the frame. *)
Definition emotion_graph (data_path : string) (emots : list (Z * pyval))
  : M image :=
  match emots with
  | _ :: _ =>
      let num_persons := Z.of_nat (length emots) in
      graphs ← for_persons data_path num_persons emots [];
      if 1 <? num_persons
      then extern (EvCustomConcat graphs) (custom_concat C graphs)
      else match graphs with
           | g :: _ => mret g
           | [] => raise IndexError
           end
  | [] =>
      keys ← (_ ← emit EvLineAngles; attribute (visualize_line_angles C));
      let probs := PDict (dict_fromkeys (py_init keys) (PInt 0)) in
      _ ← extern (EvVisualize (PStr "unknown") probs)
            (visualize_visualize C (PStr "unknown") probs);
      attribute (visualize_plane C)
  end.

(** Lines 68-126: one pass of the loop body on a decoded frame; returns
    whether the quit key was pressed. *)
Definition iteration (width height : Z) (data_path display_window : string)
    (frame : image) : M bool :=
  frame ← extern EvDrawBbox (face_drawBbox C frame);
  '(frame, emots) ← extern EvLabelEmotion (emotion_labelEmotion C frame);
  _ ← emit (EvDetected emots);
  frame ← resize frame (700, 500);
  emot_graph ← emotion_graph data_path emots;
  emot_graph ← resize emot_graph (500, 500);
  frame_combined ← extern (EvNpConcatenate [frame; emot_graph])
                     (np_concatenate C [frame; emot_graph] 1);
  frame_combined ← resize frame_combined (width, height);
  _ ← extern (EvImshow display_window frame_combined)
        (cv2_imshow C display_window frame_combined);
  key ← extern EvWaitKey (cv2_waitKey C 1);
  mret (Z.land key 255 =? 113).

(** Lines 62-126: the [while] loop over the frames the decoder still holds. *)
Fixpoint while_loop (width height : Z) (data_path display_window : string)
    (frames : list image) : M unit :=
  opened ← cap_isOpened;
  if negb opened return M unit then mret tt else
  match frames with
  | [] => emit (EvRead false)
  | frame :: rest =>
      _ ← emit (EvRead true);
      quit ← iteration width height data_path display_window frame;
      if (quit : bool) return M unit then mret tt
      else while_loop width height data_path display_window rest
  end.

(** Lines 42-132. *)
Definition process_video (video_path : string) (width height : Z)
    (data_path display_window : string) : M unit :=
  found ← Path_exists video_path;
  if negb found
  then raise (FileNotFoundError ("Video file '" +:+ video_path +:+ "' not found."))
  else
    frames ← VideoCapture video_path;
    opened ← cap_isOpened;
    if negb opened
    then raise (RuntimeError ("Could not open video: " +:+ video_path))
    else
      _ ← os_makedirs (path_parent C data_path);
      _ ← while_loop width height data_path display_window frames;
      _ ← cap_release;
      extern EvDestroyAllWindows (cv2_destroyAllWindows C).

(** ** Defaults of the keyword arguments and of the command line *)

Definition process_video_call (video_path : option string)
    (width height : option Z) (data_path display_window : option string)
  : M unit :=
  process_video (default "test.mp4" video_path)
    (default 1200 width) (default 400 height)
    (default "./uploads/data.json" data_path)
    (default "Emotion Detection" display_window).

(** The flags given on the command line. *)
Record cli_flags : Type := CliFlags {
  flag_video : option string;
  flag_width : option Z;
  flag_height : option Z;
  flag_data : option string;
}.

(** Lines 138-147: [argparse] fills in its own defaults, then calls
    [process_video] with everything but the window title given. *)
Definition main (flags : cli_flags) : M unit :=
  let args_video := default "video.mp4" (flag_video flags) in
  let args_width := default 1200 (flag_width flags) in
  let args_height := default 400 (flag_height flags) in
  let args_data := default "./uploads/data.json" (flag_data flags) in
  process_video_call (Some args_video) (Some args_width) (Some args_height)
    (Some args_data) None.

End Model.

Arguments call : clear implicits.
Arguments collaborators : clear implicits.
Arguments event : clear implicits.
Arguments world : clear implicits.
Arguments M : clear implicits.

(** ** Reading the log and the event list *)

(** The value stored under [key] in the JSON object at [p]. *)
Definition log_lookup (files : gmap string node) (p key : string) : option pyval :=
  match regular files p with
  | Some (Json (PDict d)) => dict_get d key
  | _ => None
  end.



Definition is_write {image} (ev : event image) : bool :=
  match ev with
  | EvFileWrite _ _ _ => true
  | _ => false
  end.

Definition is_cleanup {image} (ev : event image) : bool :=
  match ev with
  | EvRelease | EvDestroyAllWindows => true
  | _ => false
  end.

Definition is_visualize {image} (ev : event image) : bool :=
  match ev with
  | EvVisualize _ _ => true
  | _ => false
  end.

Definition is_face_detection {image} (ev : event image) : bool :=
  match ev with
  | EvDetected (_ :: _) => true
  | _ => false
  end.

Definition is_read {image} (ev : event image) : bool :=
  match ev with
  | EvRead _ => true
  | _ => false
  end.

Definition count {image} (f : event image → bool) (t : list (event image)) : nat :=
  length (List.filter f t).



(** Scanning from the start, a write comes before any detection of a face. *)
Fixpoint write_before_face {image} (t : list (event image)) : bool :=
  match t with
  | [] => false
  | ev :: rest =>
      if is_face_detection ev then false
      else if is_write ev then true
      else write_before_face rest
  end.

Definition is_log_check {image} (ev : event image) : bool :=
  match ev with
  | EvOsPathExists _ => true
  | _ => false
  end.

(** The path holds a regular file that is not the text of a JSON object:
    text that does not parse, or a JSON value of another kind. *)
Definition corrupt (files : gmap string node) (p : string) : bool :=
  match regular files p with
  | Some (Text _) => true
  | Some (Json (PDict _)) => false
  | Some (Json _) => true
  | None => false
  end.

(** The error the logging step ends with on such a file: [json.load]
    rejects the text, or the loaded value has no [setdefault]. *)
Definition load_failure (c : content) : exn :=
  match c with
  | Text _ => JSONDecodeError
  | Json _ => AttributeError "setdefault"
  end.

(** The value a document binds to a key. *)
Definition pyval_get (doc : pyval) (k : string) : option pyval :=
  match doc with
  | PDict d => dict_get d k
  | _ => None
  end.






(** ** More readings of the event list and of the log *)

Definition is_imshow {image} (ev : event image) : bool :=
  match ev with
  | EvImshow _ _ => true
  | _ => false
  end.

Definition is_waitkey {image} (ev : event image) : bool :=
  match ev with
  | EvWaitKey => true
  | _ => false
  end.

(** [cap.read()] delivered a frame. *)
Definition is_frame_read {image} (ev : event image) : bool :=
  match ev with
  | EvRead true => true
  | _ => false
  end.

(** [cap.read()] found the stream exhausted. *)
Definition is_stream_end {image} (ev : event image) : bool :=
  match ev with
  | EvRead false => true
  | _ => false
  end.

(** The events of the logging step. *)
Definition is_file_event {image} (ev : event image) : bool :=
  match ev with
  | EvOsPathExists _ | EvFileRead _ | EvFileWrite _ _ _ => true
  | _ => false
  end.



(** The keys of the JSON object at [p], in the order of the document. *)
Definition log_keys (files : gmap string node) (p : string) : list string :=
  match regular files p with
  | Some (Json (PDict d)) => map fst d
  | _ => []
  end.




(** The events of the plotting part of an iteration. *)
Definition is_plot_event {image} (ev : event image) : bool :=
  match ev with
  | EvVisualize _ _ | EvResize _ _ | EvLineAngles | EvCustomConcat _
  | EvOsPathExists _ | EvFileRead _ | EvFileWrite _ _ _ => true
  | _ => false
  end.



(** What the calls of the model do to its paths: every path other than the
    log keeps its node once it has one, only the log and its parent can
    appear, a directory stays a directory and nothing disappears. *)
Definition kept (dp parent : string) (files files' : gmap string node) : Prop :=
  (∀ p, p ≠ dp → files !! p ≠ None → files' !! p = files !! p)
  ∧ (∀ p, p ≠ dp → p ≠ parent → files' !! p = files !! p)
  ∧ (∀ p, files !! p = Some Dir → files' !! p = Some Dir)
  ∧ (∀ p, files !! p ≠ None → files' !! p ≠ None).

(** ** A concrete set of collaborators

    Frames carry the mapping the classifier finds in them, the hidden state
    is the queue of pending key codes, the detector raises on a frame
    without rows, and the renderer's plane is always 500 x 500. *)

Module Demo.

Record demo_image : Type := DemoImage {
  rows : N;
  cols : N;
  faces : list (Z * pyval);
}.

Definition happy : pyval := PDict [("happy", PFloat 0.75); ("sad", PFloat 0.25)].
Definition sad : pyval := PDict [("happy", PFloat 0.125); ("sad", PFloat 0.875)].

Definition pair_frame : demo_image := DemoImage 480 640 [(0, happy); (1, sad)].

Definition blank_frame : demo_image := DemoImage 480 640 [].

Definition videos (p : string) : option (list demo_image) :=
  if String.eqb p "pair.mp4" then Some [pair_frame]
  else if String.eqb p "solo.mp4"
       then Some [DemoImage 480 640 [(0, happy)]; DemoImage 480 640 [(0, sad)]]
  else if String.eqb p "nobody.mp4"
       then Some [blank_frame; blank_frame]
  else if String.eqb p "late.mp4"
       then Some [blank_frame; DemoImage 480 640 [(0, happy)]]
  else if String.eqb p "broken.mp4" then Some [DemoImage 0 0 []]
  else None.

Definition plane : demo_image := DemoImage 500 500 [].

Definition collab : collaborators (list Z) demo_image := {|
  path_parent := λ _, "uploads";
  cv2_VideoCapture := λ p x, (inr (videos p), x);
  face_drawBbox := λ f x,
    if (rows f =? 0)%N then (inl (ExternalError "empty frame"), x)
    else (inr f, x);
  emotion_labelEmotion := λ f x, (inr (f, faces f), x);
  visualize_visualize := λ _ _ x, (inr tt, x);
  visualize_plane := λ _, plane;
  visualize_line_angles := λ _, ["happy"; "sad"; "fps"];
  shape := λ f, (rows f, cols f);
  cv2_resize := λ f d x, (inr (DemoImage (Z.to_N d.2) (Z.to_N d.1) (faces f)), x);
  custom_concat := λ _ x, (inr plane, x);
  np_concatenate := λ _ _ x, (inr (DemoImage 500 1200 []), x);
  cv2_imshow := λ _ _ x, (inr tt, x);
  cv2_waitKey := λ _ x,
    match x with
    | [] => (inr (-1), [])
    | k :: rest => (inr k, rest)
    end;
  cv2_destroyAllWindows := λ x, (inr tt, x);
|}.

(** Every video is on disk; [keys] are the key codes still to come. *)
Definition disk : gmap string node :=
  list_to_map
    [("pair.mp4", File (Text "video")); ("solo.mp4", File (Text "video"));
     ("nobody.mp4", File (Text "video")); ("late.mp4", File (Text "video"));
     ("broken.mp4", File (Text "video")); ("notes.txt", File (Text "notes"));
     ("uploads", Dir)].

Definition start (keys : list Z) (files : gmap string node) : world (list Z) :=
  World keys files false.

Definition data_path : string := "uploads/data.json".

Definition run (video : string) (w : world (list Z)) :=
  process_video collab video 1200 400 data_path "Emotion Detection" w.

End Demo.

(** ** Postconditions

    [wp m w Q]: running [m] from [w] ends in a result, a world and a list of
    events that satisfy [Q]. *)

Definition wp {X image A} (m : M X image A) (w : world X)
    (Q : exn + A → world X → list (event image) → Prop) : Prop :=
  Q (m w).1.1 (m w).1.2 (m w).2.

(** ** What the parts of a run maintain *)

Section Postconditions.

Context {X image : Type}.
Implicit Types (w : world X) (t : list (event image)).

(** Neither cleanup call happens, and the handle is left as it was. *)
Definition no_cleanup w w' t : Prop :=
  count is_cleanup t = 0%nat ∧ cap_opened w' = cap_opened w.

(** Until a face is detected nothing is written and every regular file
    stays as it is; a write never comes before the first face. *)
Definition faceless w w' t : Prop :=
  write_before_face t = false
  ∧ (count is_face_detection t = 0%nat →
     count is_write t = 0%nat ∧ ∀ p, regular (fs w') p = regular (fs w) p).


(** Inside the plotting of a frame: no file changes and nothing is written;
    with somebody to log the computation does not return; and once the
    logging step has tested the path, the computation has ended there, by
    the load failure, right after reading the file. *)
Definition refused {A} (dp : string) (items : list (Z * pyval))
    w (r : exn + A) w' t : Prop :=
  fs w' = fs w
  ∧ count is_write t = 0%nat
  ∧ count is_face_detection t = 0%nat
  ∧ (items ≠ [] → ∀ a, r ≠ inr a)
  ∧ (items = [] → count is_log_check t = 0%nat)
  ∧ (count is_log_check t ≠ 0%nat →
     ∃ c, regular (fs w) dp = Some c ∧ r = inl (load_failure c)
          ∧ last t = Some (EvFileRead dp)).

(** From the loop upward: the regular file at the log path stays as it is
    and nothing is written; a face is detected at most once, and not at all
    if the computation returns; and once the logging step has tested the
    path, in the first frame with a face, the computation has ended there
    by the load failure. *)
Definition blocked {A} (dp : string) w (r : exn + A) w' t : Prop :=
  regular (fs w') dp = regular (fs w) dp
  ∧ count is_write t = 0%nat
  ∧ (count is_face_detection t ≤ 1)%nat
  ∧ (∀ a, r = inr a →
     count is_face_detection t = 0%nat ∧ count is_log_check t = 0%nat)
  ∧ (count is_log_check t ≠ 0%nat →
     ∃ c, regular (fs w) dp = Some c ∧ r = inl (load_failure c)
          ∧ count is_face_detection t = 1%nat
          ∧ last t = Some (EvFileRead dp)).

End Postconditions.

(** ** The outcomes of the logging step

    What [log_person] does depends only on what the path holds. *)

Inductive log_outcome {X image} (dp key : string) (v : pyval) (w : world X)
  : exn + unit → world X → list (event image) → Prop :=
| LogFresh :
    fs w !! dp = None →
    log_outcome dp key v w (inr tt)
      (set_fs (<[dp := File (Json (PDict [(key, PList [v])]))]> (fs w)) w)
      [EvOsPathExists dp; EvFileWrite dp None (PDict []); EvFileRead dp;
       EvFileWrite dp (Some (File (Json (PDict [])))) (PDict [(key, PList [v])])]
| LogAppend records records' :
    fs w !! dp = Some (File (Json records)) →
    setdefault_append records key v = inr records' →
    log_outcome dp key v w (inr tt)
      (set_fs (<[dp := File (Json records')]> (fs w)) w)
      [EvOsPathExists dp; EvFileRead dp;
       EvFileWrite dp (Some (File (Json records))) records']
| LogRefused records e :
    fs w !! dp = Some (File (Json records)) →
    setdefault_append records key v = inl e →
    log_outcome dp key v w (inl e) w [EvOsPathExists dp; EvFileRead dp]
| LogGarbled raw :
    fs w !! dp = Some (File (Text raw)) →
    log_outcome dp key v w (inl JSONDecodeError) w
      [EvOsPathExists dp; EvFileRead dp]
| LogDirectory :
    fs w !! dp = Some Dir →
    log_outcome dp key v w (inl (IsADirectoryError dp)) w
      [EvOsPathExists dp; EvFileRead dp].

(** ** The plots of a frame, in the words of the specification

    With [n] persons in the frame, the renderer is called for each (person,
    vector) pair in arrival order; its plane, of [h] rows and [w] columns,
    is resized to [(floor (w / n), floor (h / n))], and the resized plots
    are collected in the same order.  The relation threads the hidden state
    of the collaborators from [x] to [x']. *)

Inductive scaled_plots {X image} (C : collaborators X image) (n : Z)
  : X → list (Z * pyval) → list image → X → Prop :=
| scaled_nil x : scaled_plots C n x [] [] x
| scaled_cons x idx v x1 out x2 items outs x3 :
    visualize_visualize C (PInt idx) v x = (inr tt, x1) →
    cv2_resize C (visualize_plane C x1)
      (Z.of_N (shape C (visualize_plane C x1)).2 `div` n,
       Z.of_N (shape C (visualize_plane C x1)).1 `div` n) x1
    = (inr out, x2) →
    scaled_plots C n x2 items outs x3 →
    scaled_plots C n x ((idx, v) :: items) (out :: outs) x3.

(** The renderer's plane has fewer than 2^53 rows and columns, whatever the
    hidden state: the sizes a float holds exactly. *)
Definition plane_fits {X image} (C : collaborators X image) : Prop :=
  ∀ x, Z.of_N (shape C (visualize_plane C x)).1 < 2 ^ 53
       ∧ Z.of_N (shape C (visualize_plane C x)).2 < 2 ^ 53.

(** * Properties *)

(** ** Insertion-ordered dicts *)

Lemma dict_get_set_eq d k v : dict_get (dict_set d k v) k = Some v.
Proof.
  induction d as [|[k' v'] d IH]; simpl.
  - by rewrite String.eqb_refl.
  - destruct (String.eqb k' k) eqn:E; simpl; rewrite E; [done | exact IH].
Qed.

Lemma dict_get_set_ne d k k' v :
  k' ≠ k → dict_get (dict_set d k v) k' = dict_get d k'.
Proof.
  intros Hne. induction d as [|[k0 v0] d IH]; simpl.
  - destruct (String.eqb_spec k k'); [congruence | done].
  - destruct (String.eqb_spec k0 k) as [->|Hk]; simpl.
    + destruct (String.eqb_spec k k'); [congruence | done].
    + destruct (String.eqb_spec k0 k'); [done | exact IH].
Qed.


(** ** Weakest preconditions for the monad *)

Section Wp.

Context {X image : Type}.
Implicit Types (w : world X) (t : list (event image)).

Lemma wp_run {A} (m : M X image A) w Q r w' t :
  m w = (r, w', t) → wp m w Q → Q r w' t.
Proof. unfold wp. by intros ->. Qed.

Lemma wp_mono {A} (m : M X image A) w (Q Q' : _ → _ → _ → Prop) :
  wp m w Q → (∀ r w' t, Q r w' t → Q' r w' t) → wp m w Q'.
Proof. unfold wp. auto. Qed.

Lemma wp_ret {A} (a : A) w (Q : _ → _ → list (event image) → Prop) :
  Q (inr a) w [] → wp (mret a) w Q.
Proof. done. Qed.

Lemma wp_bind {A B} (m : M X image A) (f : A → M X image B) w
    (Q : _ → _ → _ → Prop) :
  wp m w (λ r w1 t1,
    match r with
    | inl e => Q (inl e) w1 t1
    | inr a => wp (f a) w1 (λ r' w2 t2, Q r' w2 (t1 ++ t2))
    end) →
  wp (m ≫= f) w Q.
Proof.
  unfold wp, mbind, M_bind.
  destruct (m w) as [[[e|a] w1] t1]; simpl; [done|].
  by destruct (f a w1) as [[r w2] t2].
Qed.

Lemma wp_raise {A} (e : exn) w (Q : exn + A → _ → list (event image) → Prop) :
  Q (inl e) w [] → wp (raise e) w Q.
Proof. done. Qed.

Lemma wp_emit (ev : event image) w (Q : _ → _ → _ → Prop) :
  Q (inr tt) w [ev] → wp (emit ev) w Q.
Proof. done. Qed.

Lemma wp_lift {A} (r : exn + A) w (Q : _ → _ → list (event image) → Prop) :
  Q r w [] → wp (lift r) w Q.
Proof. done. Qed.

Lemma wp_attribute {A} (f : X → A) w (Q : _ → _ → list (event image) → Prop) :
  Q (inr (f (ext w))) w [] → wp (attribute f) w Q.
Proof. done. Qed.

(** A collaborator may return anything and leave any hidden state. *)
Lemma wp_extern {A} (ev : event image) (f : call X A) w (Q : _ → _ → _ → Prop) :
  (∀ r x, f (ext w) = (r, x) → Q r (set_ext x w) [ev]) → wp (extern ev f) w Q.
Proof.
  unfold wp, extern. intros H. destruct (f (ext w)) as [r x] eqn:E. by apply H.
Qed.

End Wp.

(** ** The logging step *)

Section Logging.

Context {X image : Type}.
Implicit Types (w : world X) (t : list (event image)).

(** The logging step makes no external call: its outcome is a function of
    what the path holds. *)
Lemma log_person_eq dp idx v w :
  log_person (image := image) dp idx v w =
  let key := py_str (idx + 1) in
  match fs w !! dp with
  | None =>
      (inr tt,
       set_fs (<[dp := File (Json (PDict [(key, PList [v])]))]> (fs w)) w,
       [EvOsPathExists dp; EvFileWrite dp None (PDict []); EvFileRead dp;
        EvFileWrite dp (Some (File (Json (PDict []))))
          (PDict [(key, PList [v])])])
  | Some Dir =>
      (inl (IsADirectoryError dp), w, [EvOsPathExists dp; EvFileRead dp])
  | Some (File (Text _)) =>
      (inl JSONDecodeError, w, [EvOsPathExists dp; EvFileRead dp])
  | Some (File (Json records)) =>
      match setdefault_append records key v with
      | inl e => (inl e, w, [EvOsPathExists dp; EvFileRead dp])
      | inr records' =>
          (inr tt, set_fs (<[dp := File (Json records')]> (fs w)) w,
           [EvOsPathExists dp; EvFileRead dp;
            EvFileWrite dp (Some (File (Json records))) records'])
      end
  end.
Proof.
  unfold log_person, mbind, M_bind, os_path_exists, open_r_json_load,
    open_w_json_dump, exists_b, lift, mret, M_ret.
  destruct (fs w !! dp) as [[|[raw|records]]|] eqn:E; simpl; rewrite ?E; simpl.
  - done.
  - done.
  - destruct (setdefault_append records _ v); simpl; rewrite ?E; done.
  - rewrite !lookup_insert_eq. simpl. rewrite lookup_insert_eq.
    rewrite String.eqb_refl. unfold set_fs; simpl. by rewrite insert_insert_eq.
Qed.

Lemma wp_log_person dp idx v w (Q : _ → _ → list (event image) → Prop) :
  (∀ r w' t, log_outcome dp (py_str (idx + 1)) v w r w' t → Q r w' t) →
  wp (log_person dp idx v) w Q.
Proof.
  intros H. unfold wp. rewrite log_person_eq. cbv zeta.
  destruct (fs w !! dp) as [[|[raw|records]]|] eqn:E.
  - apply H. by constructor.
  - apply H. by econstructor.
  - destruct (setdefault_append records _ v) eqn:E'; apply H; by econstructor.
  - apply H. by constructor.
Qed.



End Logging.


(** ** Stepping through a computation *)

Section Steps.

Context {X image : Type} (C : collaborators X image).
Implicit Types (w : world X) (t : list (event image)).

Lemma wp_Path_exists p w (Q : _ → _ → list (event image) → Prop) :
  Q (inr (exists_b (fs w) p)) w [EvPathExists p] → wp (Path_exists p) w Q.
Proof. done. Qed.

Lemma wp_cap_isOpened w (Q : _ → _ → list (event image) → Prop) :
  Q (inr (cap_opened w)) w [EvIsOpened] → wp cap_isOpened w Q.
Proof. done. Qed.

Lemma wp_cap_release w (Q : _ → _ → list (event image) → Prop) :
  Q (inr tt) (set_cap false w) [EvRelease] → wp cap_release w Q.
Proof. done. Qed.

(** Opening the stream touches no file. *)
Lemma wp_VideoCapture p w (Q : _ → _ → list (event image) → Prop) :
  (∀ r w', fs w' = fs w → Q r w' [EvVideoCapture p]) →
  wp (VideoCapture C p) w Q.
Proof.
  unfold wp, VideoCapture. intros H.
  destruct (cv2_VideoCapture C p (ext w)) as [[e|[frames|]] x]; by apply H.
Qed.

(** Creating the log directory leaves every regular file as it was. *)
Lemma wp_os_makedirs d w (Q : _ → _ → list (event image) → Prop) :
  (∀ r files, (∀ p, regular files p = regular (fs w) p) →
              Q r (set_fs files w) [EvMakedirs d]) →
  wp (os_makedirs d) w Q.
Proof.
  unfold wp, os_makedirs. intros H.
  assert (Hid : set_fs (fs w) w = w) by by destruct w.
  destruct (fs w !! d) as [[|c]|] eqn:E; simpl.
  - rewrite <- Hid at 1. by apply H.
  - rewrite <- Hid at 1. by apply H.
  - apply H. intros p. unfold regular.
    destruct (decide (d = p)) as [<-|Hne].
    + by rewrite lookup_insert_eq, E.
    + by rewrite lookup_insert_ne.
Qed.

End Steps.

Ltac wp_simpl :=
  cbn beta iota; cbn [ext fs cap_opened set_ext set_fs set_cap app].

Ltac log_cases :=
  match goal with
  | H : log_outcome _ _ _ _ _ _ _ |- _ => inversion H; clear H; subst
  end.

Ltac wp_step_core log_tac :=
  lazymatch goal with
  | |- wp (mbind _ _) _ _ => apply wp_bind
  | |- wp (mret _) _ _ => apply wp_ret
  | |- wp (raise _) _ _ => apply wp_raise
  | |- wp (emit _) _ _ => apply wp_emit
  | |- wp (lift _) _ _ => apply wp_lift
  | |- wp (attribute _) _ _ => apply wp_attribute
  | |- wp (extern _ _) _ _ => apply wp_extern; intros [?|?] ? ?
  | |- wp (resize _ _ _) _ _ => apply wp_extern; intros [?|?] ? ?
  | |- wp (Path_exists _) _ _ => apply wp_Path_exists
  | |- wp cap_isOpened _ _ => apply wp_cap_isOpened
  | |- wp cap_release _ _ => apply wp_cap_release
  | |- wp (log_person _ _ _) _ _ =>
      apply wp_log_person; intros ? ? ? ?; log_tac
  | |- wp (let '(_, _) := ?p in _) _ _ => destruct p eqn:?
  | |- wp (if ?b then _ else _) _ _ => destruct b eqn:?
  | |- match py_truediv ?a ?b with _ => _ end =>
      destruct (py_truediv a b) as [?|?] eqn:?
  end; wp_simpl.

(** [wp_step] splits the logging step into its outcomes; [wp_step_keep]
    keeps the outcome as a hypothesis. *)
Ltac wp_step := wp_step_core ltac:(idtac; log_cases).
Ltac wp_step_keep := wp_step_core ltac:(idtac).

Ltac wp_steps := repeat wp_step.

(** Two results of one call are the same result. *)
Ltac same_calls :=
  repeat match goal with
         | H1 : ?f = _, H2 : ?f = _ |- _ => rewrite H1 in H2; simplify_eq
         end.
Ltac wp_steps_keep := repeat wp_step_keep.

(** Turn a goal about the outcome [(r, w', t)] of a run into a postcondition. *)
Ltac wp_start H :=
  lazymatch type of H with
  | _ = (?r, ?w', ?t) =>
      pattern r, w', t; eapply wp_run; [exact H|]; clear H
  end.

Ltac wp_use lem := eapply wp_mono; [apply lem | wp_simpl].

(** ** Counting events *)

Section Counting.

Context {image : Type}.
Implicit Types (t : list (event image)) (f : event image → bool).

Lemma count_app f t1 t2 : count f (t1 ++ t2) = (count f t1 + count f t2)%nat.
Proof. unfold count. by rewrite List.filter_app, length_app. Qed.

Lemma count_cons f ev t :
  count f (ev :: t) = ((if f ev then 1 else 0) + count f t)%nat.
Proof. unfold count. simpl. by destruct (f ev). Qed.

Lemma count_nil f : count f [] = 0%nat.
Proof. done. Qed.

Lemma last_two (l : list (event image)) x y : last (l ++ [x; y]) = Some y.
Proof. change (l ++ [x; y]) with (l ++ [x] ++ [y]). by rewrite app_assoc, last_snoc. Qed.

Lemma count_zero_In f t : count f t = 0%nat ↔ ∀ ev, In ev t → f ev = false.
Proof.
  unfold count. induction t as [|ev t IH]; simpl; [naive_solver|].
  destruct (f ev) eqn:E; simpl.
  - split; [done|]. intros H. specialize (H ev (or_introl eq_refl)). congruence.
  - rewrite IH. split; [|by eauto]. intros H ev' [<-|Hin]; eauto.
Qed.

End Counting.

Arguments count : simpl never.

Ltac count_simpl :=
  repeat (rewrite count_app || rewrite count_cons || rewrite count_nil).

(** ** Release of the capture handle and of the window *)

Section Cleanup.

Context {X image : Type} (C : collaborators X image).
Implicit Types (w : world X) (t : list (event image)).

Ltac quiet := cbn beta iota in *; unfold no_cleanup in *;
  count_simpl; simpl in *; intuition (congruence || lia).

Lemma person_body_no_cleanup dp n idx v w :
  wp (person_body C dp n idx v) w (λ _ w' t, no_cleanup w w' t).
Proof.
  unfold person_body. wp_steps; quiet.
Qed.

Lemma for_persons_no_cleanup dp n items : ∀ graphs w,
  wp (for_persons C dp n items graphs) w (λ _ w' t, no_cleanup w w' t).
Proof.
  induction items as [|[idx v] items IH]; intros graphs w; simpl.
  - wp_steps; quiet.
  - wp_step. wp_use person_body_no_cleanup. intros [e|g] w1 t1 Hfst; [quiet|].
    wp_use IH. intros r w2 t2 Hsnd. quiet.
Qed.

Lemma emotion_graph_no_cleanup dp emots w :
  wp (emotion_graph C dp emots) w (λ _ w' t, no_cleanup w w' t).
Proof.
  unfold emotion_graph. destruct emots as [|item emots].
  - wp_steps; quiet.
  - wp_step. wp_use for_persons_no_cleanup. intros [e|graphs] w1 t1 Hfst; [quiet|].
    wp_step; [wp_steps; quiet|]. destruct graphs; wp_steps; quiet.
Qed.

Lemma iteration_no_cleanup width height dp win frame w :
  wp (iteration C width height dp win frame) w (λ _ w' t, no_cleanup w w' t).
Proof.
  unfold iteration. wp_steps; try quiet.
  wp_use emotion_graph_no_cleanup. intros [e|g] w1 t1 Hfst; [quiet|].
  wp_steps; quiet.
Qed.

Lemma while_loop_no_cleanup width height dp win frames : ∀ w,
  wp (while_loop C width height dp win frames) w (λ _ w' t, no_cleanup w w' t).
Proof.
  induction frames as [|frame frames IH]; intros w; simpl.
  - wp_steps; quiet.
  - wp_steps; try quiet.
    wp_use iteration_no_cleanup. intros [e|[]] w1 t1 Hfst; [quiet| |].
    + wp_steps; quiet.
    + wp_use IH. intros r w2 t2 Hsnd. quiet.
Qed.

(** An error of the loop is the error of the run: nothing is run after it. *)
Lemma loop_error_propagates vp width height dp win w frames x1 w1
    (tm : list (event image)) e w2 t2 :
  exists_b (fs w) vp = true →
  cv2_VideoCapture C vp (ext w) = (inr (Some frames), x1) →
  os_makedirs (path_parent C dp) (set_cap true (set_ext x1 w)) = (inr tt, w1, tm) →
  while_loop C width height dp win frames w1 = (inl e, w2, t2) →
  process_video C vp width height dp win w
  = (inl e, w2,
     [EvPathExists vp; EvVideoCapture vp; EvIsOpened;
      EvMakedirs (path_parent C dp)] ++ t2)
  ∧ cap_opened w1 = true.
Proof.
  intros Hex Hcap Hmk Hloop.
  assert (tm = [EvMakedirs (path_parent C dp)] ∧ cap_opened w1 = true)
    as [-> Hopen].
  { unfold os_makedirs in Hmk.
    destruct (fs _ !! _) as [[|c]|]; by simplify_eq. }
  split; [|done].
  unfold process_video, mbind, M_bind, Path_exists, VideoCapture, cap_isOpened.
  rewrite Hex. simpl. rewrite Hcap. simpl. rewrite Hmk. by rewrite Hloop.
Qed.

(** C3, as the code has it.  When [process_video] returns, the last two
    things it did were to release the capture handle and to destroy the
    windows, in that order, and nothing before them was a cleanup call.
    When it ends by an error, either it has made no cleanup call at all,
    and a handle whose frames it had started to read is still open, or the
    error is the one the final [destroyAllWindows] call itself raised.  In
    particular an error of the loop, so of any call of the loop body, is
    the error of the run: the run ends in the world and with the events the
    loop had reached, with neither cleanup call made and the handle open. *)
Theorem cleanup_only_on_return vp width height dp win w r w' t :
  process_video C vp width height dp win w = (r, w', t) →
  (r = inr tt →
     ∃ pre, t = pre ++ [EvRelease; EvDestroyAllWindows]
            ∧ count is_cleanup pre = 0%nat ∧ cap_opened w' = false)
  ∧ (∀ e, r = inl e →
       (count is_cleanup t = 0%nat
        ∧ (count is_read t ≠ 0%nat → cap_opened w' = true))
       ∨ (∃ pre x, t = pre ++ [EvRelease; EvDestroyAllWindows]
                   ∧ count is_cleanup pre = 0%nat
                   ∧ cv2_destroyAllWindows C x = (inl e, ext w')
                   ∧ cap_opened w' = false))
  ∧ (∀ frames x1 w1 (tm : list (event image)) e w2 t2,
       exists_b (fs w) vp = true →
       cv2_VideoCapture C vp (ext w) = (inr (Some frames), x1) →
       os_makedirs (path_parent C dp) (set_cap true (set_ext x1 w))
       = (inr tt, w1, tm) →
       while_loop C width height dp win frames w1 = (inl e, w2, t2) →
       r = inl e ∧ w' = w2
       ∧ t = [EvPathExists vp; EvVideoCapture vp; EvIsOpened;
              EvMakedirs (path_parent C dp)] ++ t2
       ∧ count is_cleanup t = 0%nat ∧ cap_opened w' = true).
Proof.
  intros Hrun.
  match goal with
  | |- ?A ∧ ?B ∧ ?D => cut ((A ∧ B) ∧ D); [tauto | split]
  end.
  - pose proof Hrun as Hrun'. wp_start Hrun'.
    unfold process_video. do 3 wp_step.
    { wp_steps. split; [done|]. intros e' _. left. by split. }
    wp_step. apply wp_VideoCapture. intros [e|frames] w1 Hfs; wp_simpl.
    { split; [done|]. intros e' _. left. by split. }
    do 3 wp_step.
    { wp_steps. split; [done|]. intros e' _. left. by split. }
    wp_step. apply wp_os_makedirs. intros [e|[]] files Hreg; wp_simpl.
    { split; [done|]. intros e' _. left. by split. }
    wp_step. wp_use while_loop_no_cleanup. intros [e|[]] w2 t2 [Hq Hcap]; wp_simpl.
    { split; [done|]. intros e' _. left. count_simpl. simpl in *.
      split; [lia|]. intros _. rewrite Hcap. by destruct (cap_opened w1). }
    do 2 wp_step. apply wp_extern. intros [e|[]] x Hx; wp_simpl.
    + split; [done|]. intros e' [= <-]. right.
      eexists (_ :: _ :: _ :: _ :: t2), _.
      split; [reflexivity|]. split; [count_simpl; simpl; lia|]. by split.
    + split; [|done]. intros _. eexists (_ :: _ :: _ :: _ :: t2).
      split; [reflexivity|]. split; [|done].
      count_simpl. simpl. lia.
  - intros frames x1 w1 tm e w2 t2 Hex Hcap Hmk Hloop.
    destruct (loop_error_propagates vp width height dp win w frames x1 w1 tm
                e w2 t2 Hex Hcap Hmk Hloop) as [Hrun' Hopen].
    rewrite Hrun' in Hrun. injection Hrun as <- <- <-.
    pose proof (while_loop_no_cleanup width height dp win frames w1) as Hq.
    unfold wp in Hq. rewrite Hloop in Hq. destruct Hq as [Hq Hcap'].
    simpl in Hq, Hcap'. repeat split; [|congruence].
    count_simpl. simpl. lia.
Qed.

End Cleanup.

(** C3, counterexample: the detector raises on the only frame of
    "broken.mp4"; the run ends by that error, with the handle still open and
    without a release or a destroy call. *)
Lemma cleanup_skipped_on_error :
  Demo.run "broken.mp4" (Demo.start [] Demo.disk)
  = (inl (ExternalError "empty frame"), World [] Demo.disk true,
     [EvPathExists "broken.mp4"; EvVideoCapture "broken.mp4"; EvIsOpened;
      EvMakedirs "uploads"; EvIsOpened; EvRead true; EvDrawBbox])
  ∧ count is_cleanup (Demo.run "broken.mp4" (Demo.start [] Demo.disk)).2 = 0%nat.
Proof. split; vm_compute; reflexivity. Qed.

(** C3 on a video without faces, where the run returns after both cleanup
    calls, and on a video whose only frame makes the detector raise, where
    the error of the loop ends the run with the handle open. *)
Lemma cleanup_only_on_return_witness :
  let out := Demo.run "nobody.mp4" (Demo.start [] Demo.disk) in
  let bad := Demo.run "broken.mp4" (Demo.start [] Demo.disk) in
  (out.1.1 = inr tt
   ∧ ∃ pre, out.2 = pre ++ [EvRelease; EvDestroyAllWindows]
            ∧ count is_cleanup pre = 0%nat ∧ cap_opened out.1.2 = false)
  ∧ (bad.1.1 = inl (ExternalError "empty frame")
     ∧ count is_cleanup bad.2 = 0%nat ∧ cap_opened bad.1.2 = true).
Proof.
  intros out bad. split.
  - destruct (cleanup_only_on_return Demo.collab "nobody.mp4" 1200 400
                Demo.data_path "Emotion Detection" (Demo.start [] Demo.disk)
                out.1.1 out.1.2 out.2) as [Hret _].
    + vm_compute. reflexivity.
    + split; [vm_compute; reflexivity|]. apply Hret. vm_compute. reflexivity.
  - destruct (cleanup_only_on_return Demo.collab "broken.mp4" 1200 400
                Demo.data_path "Emotion Detection" (Demo.start [] Demo.disk)
                bad.1.1 bad.1.2 bad.2) as (_ & _ & Hloop).
    + vm_compute. reflexivity.
    + destruct (Hloop [Demo.DemoImage 0 0 []] [] (World [] Demo.disk true)
                  [EvMakedirs "uploads"] (ExternalError "empty frame")
                  (World [] Demo.disk true) [EvIsOpened; EvRead true; EvDrawBbox])
        as (Hr & _ & _ & Hnone & Hopen); try (vm_compute; reflexivity).
      by repeat split.
Defined.

(** ** Startup *)

Section Startup.

Context {X image : Type} (C : collaborators X image).
Implicit Types (w : world X) (t : list (event image)).

Lemma process_video_missing vp width height dp win w :
  exists_b (fs w) vp = false →
  process_video C vp width height dp win w
  = (inl (FileNotFoundError ("Video file '" +:+ vp +:+ "' not found.")),
     w, [EvPathExists vp]).
Proof.
  intros Hex. unfold process_video, mbind, M_bind, Path_exists.
  by rewrite Hex.
Qed.

(** C6. If the video path does not exist, [process_video] raises
    [FileNotFoundError] having only tested the path: the stream is not
    opened and no frame is read.  If the path exists and the backend cannot
    open the stream, it raises the "could not open" [RuntimeError] right
    after the open attempt: the log directory is not made, the loop does
    not start and no frame is read. *)
Theorem startup_errors vp width height dp win w :
  (exists_b (fs w) vp = false →
     process_video C vp width height dp win w
     = (inl (FileNotFoundError ("Video file '" +:+ vp +:+ "' not found.")),
        w, [EvPathExists vp]))
  ∧ (exists_b (fs w) vp = true →
     ∀ x, cv2_VideoCapture C vp (ext w) = (inr None, x) →
       process_video C vp width height dp win w
       = (inl (RuntimeError ("Could not open video: " +:+ vp)),
          set_cap false (set_ext x w),
          [EvPathExists vp; EvVideoCapture vp; EvIsOpened])).
Proof.
  split; [apply process_video_missing|].
  intros Hex x Hx.
  unfold process_video, mbind, M_bind, Path_exists, VideoCapture, cap_isOpened.
  rewrite Hex. simpl. by rewrite Hx.
Qed.

(** C10. A call of [process_video] without arguments runs on "test.mp4",
    the command line without flags runs on "video.mp4"; the two names
    differ, so the two bare invocations test (and would open) different
    files, and the bare call raises [FileNotFoundError] unless "test.mp4"
    exists. *)
Theorem default_video_paths :
  process_video_call C None None None None None
  = process_video C "test.mp4" 1200 400 "./uploads/data.json" "Emotion Detection"
  ∧ main C (CliFlags None None None None)
    = process_video C "video.mp4" 1200 400 "./uploads/data.json"
        "Emotion Detection"
  ∧ "test.mp4" ≠ "video.mp4"
  ∧ (∀ w, ∃ t t',
       (process_video_call C None None None None None w).2
       = EvPathExists "test.mp4" :: t
       ∧ (main C (CliFlags None None None None) w).2
         = EvPathExists "video.mp4" :: t')
  ∧ (∀ w, exists_b (fs w) "test.mp4" = false →
       process_video_call C None None None None None w
       = (inl (FileNotFoundError "Video file 'test.mp4' not found."), w,
          [EvPathExists "test.mp4"])).
Proof.
  split; [done|]. split; [done|]. split; [done|]. split.
  - intros w. unfold main, process_video_call, process_video; simpl.
    unfold mbind, M_bind, Path_exists.
    destruct (negb (exists_b (fs w) "test.mp4")),
      (negb (exists_b (fs w) "video.mp4")); simpl;
      repeat match goal with
             | |- context [match ?m ?w with _ => _ end] =>
                 destruct (m w) as [[[?|?] ?] ?]
             end; simpl; eauto.
  - intros w Hw. unfold process_video_call. simpl.
    by apply process_video_missing.
Qed.

End Startup.

(** C6 on a missing path and on a file that is not a video. *)
Lemma startup_errors_witness :
  (exists_b Demo.disk "missing.mp4" = false
   ∧ Demo.run "missing.mp4" (Demo.start [] Demo.disk)
     = (inl (FileNotFoundError "Video file 'missing.mp4' not found."),
        Demo.start [] Demo.disk, [EvPathExists "missing.mp4"]))
  ∧ (exists_b Demo.disk "notes.txt" = true
     ∧ Demo.run "notes.txt" (Demo.start [] Demo.disk)
       = (inl (RuntimeError "Could not open video: notes.txt"),
          Demo.start [] Demo.disk,
          [EvPathExists "notes.txt"; EvVideoCapture "notes.txt"; EvIsOpened])).
Proof.
  destruct (startup_errors Demo.collab "missing.mp4" 1200 400 Demo.data_path
              "Emotion Detection" (Demo.start [] Demo.disk)) as [Hmissing _].
  destruct (startup_errors Demo.collab "notes.txt" 1200 400 Demo.data_path
              "Emotion Detection" (Demo.start [] Demo.disk)) as [_ Hclosed].
  split; (split; [reflexivity|]).
  - apply Hmissing. reflexivity.
  - apply (Hclosed eq_refl []). reflexivity.
Defined.

(** C10 on a disk without "test.mp4". *)
Lemma default_video_paths_witness :
  exists_b Demo.disk "test.mp4" = false
  ∧ process_video_call Demo.collab None None None None None
      (Demo.start [] Demo.disk)
    = (inl (FileNotFoundError "Video file 'test.mp4' not found."),
       Demo.start [] Demo.disk, [EvPathExists "test.mp4"]).
Proof.
  split; [reflexivity|].
  apply (default_video_paths Demo.collab). reflexivity.
Defined.

(** ** Rewrites of the log per frame *)

Section Writes.

Context {X image : Type} (C : collaborators X image).
Implicit Types (w : world X) (t : list (event image)).





End Writes.

(** ** Detection events come only from the classifier call *)

Section Detections.

Context {X image : Type} (C : collaborators X image).
Implicit Types (w : world X) (t : list (event image)).


Lemma wp_conj {A} (m : M X image A) w (Q1 Q2 : _ → _ → _ → Prop) :
  wp m w Q1 → wp m w Q2 → wp m w (λ r w' t, Q1 r w' t ∧ Q2 r w' t).
Proof. unfold wp. auto. Qed.





End Detections.

Section WritesPerFrame.

Context {X image : Type} (C : collaborators X image).
Implicit Types (w : world X) (t : list (event image)).


End WritesPerFrame.



(** ** No write before the first face *)

Section FirstFace.

Context {X image : Type} (C : collaborators X image).
Implicit Types (w : world X) (t : list (event image)).

Lemma wp_any {A} (m : M X image A) w (Q : _ → _ → _ → Prop) :
  (∀ r w' t, Q r w' t) → wp m w Q.
Proof. unfold wp. auto. Qed.

Lemma write_before_face_app t1 t2 :
  write_before_face t1 = false →
  (count is_face_detection t1 = 0%nat → write_before_face t2 = false) →
  write_before_face (t1 ++ t2) = false.
Proof.
  induction t1 as [|ev t1 IH]; simpl; intros H1 H2.
  - by apply H2.
  - destruct (is_face_detection ev) eqn:Ef; [done|].
    destruct (is_write ev); [done|]. apply IH; [done|].
    intros Hc. apply H2. count_simpl. rewrite Ef. simpl. exact Hc.
Qed.

(** What the scan says, in words: every write has a detection of a face
    somewhere before it. *)
Lemma write_before_face_false t :
  write_before_face t = false →
  ∀ pre ev post, t = pre ++ ev :: post → is_write ev = true →
  ∃ ev', In ev' pre ∧ is_face_detection ev' = true.
Proof.
  induction t as [|ev0 t IH]; intros Hscan pre ev post Heq Hw.
  - by destruct pre.
  - simpl in Hscan. destruct pre as [|ev1 pre]; simpl in Heq; simplify_eq.
    + rewrite Hw in Hscan. destruct ev; simpl in *; done.
    + destruct (is_face_detection ev1) eqn:Ef.
      * exists ev1. split; [by left | done].
      * destruct (is_write ev1); [done|].
        destruct (IH Hscan pre ev post eq_refl Hw) as (ev' & Hin & Hf).
        exists ev'. split; [by right | done].
Qed.

Lemma faceless_app w w1 w2 t1 t2 :
  faceless w w1 t1 → faceless w1 w2 t2 → faceless w w2 (t1 ++ t2).
Proof.
  intros [S1 N1] [S2 N2]. split.
  - apply write_before_face_app; auto.
  - count_simpl. intros Hc.
    destruct N1 as [W1 R1]; [lia|]. destruct N2 as [W2 R2]; [lia|].
    split; [lia|]. intros p. by rewrite R2, R1.
Qed.

Ltac plain := cbn beta iota in *; unfold faceless; simpl;
  (split; [done|]); count_simpl; simpl; intros;
  first [exfalso; lia | split; [lia || done|done]].

Lemma iteration_faceless width height dp win frame w :
  wp (iteration C width height dp win frame) w (λ _ w' t, faceless w w' t).
Proof.
  unfold iteration. wp_steps; try plain; destruct l as [|item l]; try plain.
  - unfold emotion_graph. wp_steps; plain.
  - apply wp_any. intros [e|g] w1 t1; [|apply wp_any; intros r w2 t2];
      (split; [done|]); count_simpl; simpl; lia.
Qed.

Lemma while_loop_faceless width height dp win frames : ∀ w,
  wp (while_loop C width height dp win frames) w (λ _ w' t, faceless w w' t).
Proof.
  induction frames as [|frame frames IH]; intros w; simpl.
  - wp_steps; plain.
  - wp_steps; try plain.
    wp_use iteration_faceless. intros [e|[]] w1 t1 Hfst.
    + apply (faceless_app w w w1 [_; _] t1); [plain | done].
    + wp_steps. rewrite app_nil_r.
      apply (faceless_app w w w1 [_; _] t1); [plain | done].
    + wp_use IH. intros r w2 t2 Hsnd.
      apply (faceless_app w w w2 [_; _] (t1 ++ t2)); [plain |].
      by apply (faceless_app w w1 w2).
Qed.

(** C4. In a run of [process_video], every write to the log has a frame
    with a non-empty detection mapping before it; and a run in which the
    mapping is empty on every frame writes nothing and leaves every regular
    file, so also the absence of one at [data_path], as it was. *)
Theorem no_write_before_first_face vp width height dp win w r w' t :
  process_video C vp width height dp win w = (r, w', t) →
  (∀ pre ev post, t = pre ++ ev :: post → is_write ev = true →
     ∃ ev', In ev' pre ∧ is_face_detection ev' = true)
  ∧ (count is_face_detection t = 0%nat →
     count is_write t = 0%nat ∧ regular (fs w') dp = regular (fs w) dp).
Proof.
  intros Hrun.
  cut (faceless w w' t).
  { intros [Hscan Hnone]. split; [by apply write_before_face_false|].
    intros Hc. destruct (Hnone Hc) as [Hw Hreg]. by rewrite Hreg. }
  wp_start Hrun. unfold process_video. do 3 wp_step; [wp_steps; plain|].
  wp_step. apply wp_VideoCapture. intros [e|frames] w1 Hfs; wp_simpl.
  { unfold faceless. rewrite Hfs. plain. }
  do 3 wp_step; [wp_steps; unfold faceless; rewrite Hfs; plain|].
  wp_step. apply wp_os_makedirs. intros [e|[]] files Hreg; wp_simpl.
  { unfold faceless. simpl. split; [done|]. count_simpl. simpl.
    split; [lia|]. intros p. by rewrite Hreg, Hfs. }
  assert (Hpre : faceless (image := image) w (set_fs files w1)
                   [EvPathExists vp; EvVideoCapture vp; EvIsOpened;
                    EvMakedirs (path_parent C dp)]).
  { unfold faceless. simpl. split; [done|]. count_simpl. simpl.
    split; [lia|]. intros p. by rewrite Hreg, Hfs. }
  wp_step. wp_use while_loop_faceless. intros [e|[]] w2 t2 Hloop.
  { by apply (faceless_app _ _ _ [_; _; _; _] t2 Hpre). }
  do 2 wp_step. apply wp_extern. intros r' x Hx.
  apply (faceless_app _ _ _ [_; _; _; _] (t2 ++ [_; _]) Hpre).
  apply (faceless_app _ _ _ t2 [_; _] Hloop). plain.
Qed.

End FirstFace.

(** C4 on a video without faces: nothing is written, no log appears. *)
Lemma no_write_before_first_face_witness :
  let w := Demo.start [] Demo.disk in
  let out := Demo.run "nobody.mp4" w in
  count is_face_detection out.2 = 0%nat
  ∧ count is_write out.2 = 0%nat
  ∧ regular (fs out.1.2) Demo.data_path = regular (fs w) Demo.data_path
  ∧ regular (fs w) Demo.data_path = None.
Proof.
  intros w out.
  destruct (no_write_before_first_face Demo.collab "nobody.mp4" 1200 400
              Demo.data_path "Emotion Detection" w out.1.1 out.1.2 out.2)
    as [_ Hnone]; [vm_compute; reflexivity|].
  assert (Hc : count is_face_detection out.2 = 0%nat) by (vm_compute; reflexivity).
  destruct (Hnone Hc) as [Hw Hreg].
  split; [exact Hc|]. split; [exact Hw|]. split; [exact Hreg|].
  vm_compute. reflexivity.
Defined.

(** ** The log only grows *)

Section AppendOnly.

Context {X image : Type} (C : collaborators X image).
Implicit Types (w : world X) (t : list (event image)).

Lemma setdefault_append_inv records key x records' :
  setdefault_append records key x = inr records' →
  ∃ d d' l,
    records = PDict d ∧ records' = PDict d'
    ∧ match dict_get d key with
      | Some v => v = PList l
      | None => l = []
      end
    ∧ dict_get d' key = Some (PList (l ++ [x]))
    ∧ ∀ k, k ≠ key → dict_get d' k = dict_get d k.
Proof.
  unfold setdefault_append, py_setdefault.
  destruct records as [| | | | | |d]; try done.
  destruct (dict_get d key) as [value|] eqn:E; simpl.
  - destruct value as [| | | | |l|]; try done. intros [= <-].
    exists d, (dict_set d key (PList (l ++ [x]))), l. rewrite E.
    repeat split; [apply dict_get_set_eq|]. intros; by apply dict_get_set_ne.
  - intros [= <-]. eexists d, _, []. rewrite E.
    repeat split; [apply dict_get_set_eq|]. intros. by rewrite !dict_get_set_ne.
Qed.


















End AppendOnly.


(** ** The size of the plots *)

(** *** [int(a / b)] below 2^53

    Rounding the quotient to binary64 can move it up to the next float, and
    that float can be the next integer; for a dividend below 2^53 it never
    is, so dropping the fraction gives the floor of the exact quotient. *)

Lemma round_half_even_cases n d :
  round_half_even n d = n `div` d
  ∨ (round_half_even n d = n `div` d + 1 ∧ d ≤ 2 * (n `mod` d)).
Proof.
  unfold round_half_even.
  destruct (Z.ltb_spec (2 * (n `mod` d)) d); [by left|].
  destruct (Z.ltb_spec d (2 * (n `mod` d))); [right; lia|].
  destruct (Z.even (n `div` d)); [by left | right; lia].
Qed.

(** The quotient [a / b] is scaled by [s], rounded to an integer and scaled
    back.  With [P] the weight of the leading bit: either the scaled
    quotient has its leading bit set (the quotient is normal) or the scale
    is the largest one (it is subnormal). *)
Lemma round_keeps_floor P a b s :
  0 ≤ a < 2 * P → 1 ≤ b → 1 ≤ s → P * b ≤ a * s ∨ P < s →
  round_half_even (a * s) b `div` s = a `div` b.
Proof.
  intros Ha Hb Hs Hnorm.
  pose proof (Z.div_mod a b ltac:(lia)) as Hk.
  pose proof (Z.mod_pos_bound a b ltac:(lia)) as Hra.
  pose proof (Z.div_mod (a * s) b ltac:(lia)) as Hm.
  pose proof (Z.mod_pos_bound (a * s) b ltac:(lia)) as Hrem.
  set (k := a `div` b) in *. set (ra := a `mod` b) in *.
  set (m := (a * s) `div` b) in *. set (rem := (a * s) `mod` b) in *.
  assert (Hlo : k * s ≤ m) by nia.
  assert (Hhi : m < (k + 1) * s) by nia.
  assert (Hk0 : 0 ≤ k) by (apply Z.div_pos; lia).
  destruct (round_half_even_cases (a * s) b) as [Hr|[Hr Hup]]; rewrite Hr; fold m.
  - symmetry. apply (Z.div_unique_pos _ _ _ (m - k * s)); lia.
  - symmetry. apply (Z.div_unique_pos _ _ _ (m + 1 - k * s)); [|lia].
    fold rem in Hup. split; [lia|].
    destruct (Z.eq_dec (m + 1) ((k + 1) * s)) as [Heq|]; [exfalso|lia].
    assert (Hgap : s * (b - ra) = b - rem) by nia.
    assert (Hb2 : 2 * s ≤ b) by nia.
    destruct Hnorm as [Hnorm|Hnorm]; nia.
Qed.

Lemma log2_quotient_le_log2 a b : 0 < a → 0 < b → log2_quotient a b ≤ Z.log2 a.
Proof.
  intros Ha Hb. unfold log2_quotient.
  pose proof (Z.log2_nonneg b).
  destruct (_ <? _); lia.
Qed.

(** [2 ^ log2_quotient a b ≤ a / b], without fractions. *)
Lemma log2_quotient_lower a b :
  0 < a → 0 < b →
  b * 2 ^ Z.max (log2_quotient a b) 0 ≤ a * 2 ^ Z.max (- log2_quotient a b) 0.
Proof.
  intros Ha Hb. unfold log2_quotient.
  destruct (Z.log2_spec a Ha) as [Hla _]. destruct (Z.log2_spec b Hb) as [_ Hlb].
  pose proof (Z.log2_nonneg a) as Hna. pose proof (Z.log2_nonneg b) as Hnb.
  set (la := Z.log2 a) in *. set (lb := Z.log2 b) in *.
  destruct (Z.ltb_spec (a * 2 ^ Z.max (- (la - lb)) 0) (b * 2 ^ Z.max (la - lb) 0))
    as [_|Hge]; [|exact Hge].
  replace (Z.succ lb) with (lb + 1) in Hlb by lia.
  destruct (Z.le_gt_cases 1 (la - lb)) as [Hd|Hd].
  - rewrite Z.max_l, Z.max_r by lia. rewrite Z.mul_1_r.
    replace la with ((lb + 1) + (la - lb - 1)) in Hla by lia.
    rewrite Z.pow_add_r in Hla by lia.
    pose proof (Z.pow_pos_nonneg 2 (la - lb - 1) ltac:(lia) ltac:(lia)). nia.
  - rewrite Z.max_r, Z.max_l by lia. rewrite Z.mul_1_r.
    replace (lb + 1) with (la + - (la - lb - 1)) in Hlb by lia.
    rewrite Z.pow_add_r in Hlb by lia.
    pose proof (Z.pow_pos_nonneg 2 (- (la - lb - 1)) ltac:(lia) ltac:(lia)). nia.
Qed.

(** For a dividend below 2^53 and a positive divisor the division returns,
    and [int] of its result is the floor of the exact quotient. *)
Lemma py_truediv_floor a b :
  0 ≤ a < 2 ^ 53 → 1 ≤ b →
  ∃ q, py_truediv a b = inr q ∧ py_int q = a `div` b.
Proof.
  intros Ha Hb. unfold py_truediv.
  destruct (Z.eqb_spec b 0) as [|_]; [lia|].
  destruct (Z.eqb_spec a 0) as [->|Hne].
  { exists (inject_Z 0). split; [done|]. by rewrite Z.div_0_l by lia. }
  rewrite (Z.abs_eq a), (Z.abs_eq b) by lia.
  rewrite (Z.sgn_pos a), (Z.sgn_pos b) by lia.
  unfold binary64_nearest.
  pose proof (log2_quotient_le_log2 a b ltac:(lia) ltac:(lia)) as Hl.
  pose proof (log2_quotient_lower a b ltac:(lia) ltac:(lia)) as Hlow.
  assert (Z.log2 a < 53) as Hla by (apply Z.log2_lt_pow2; lia).
  set (l := log2_quotient a b) in *.
  set (e := Z.max (l - 52) (-1074)).
  assert (He : e ≤ 0) by lia.
  rewrite (Z.max_l (- e)), (Z.max_r e), Z.pow_0_r, Z.mul_1_r by lia.
  set (s := 2 ^ (- e)).
  assert (Hs : 1 ≤ s).
  { pose proof (Z.pow_pos_nonneg 2 (- e) ltac:(lia) ltac:(lia)). lia. }
  assert (Hkeep : round_half_even (a * s) b `div` s = a `div` b).
  { apply (round_keeps_floor (2 ^ 52)); try lia.
    destruct (Z.le_gt_cases (-1074) (l - 52)) as [Hn|Hc].
    - left.
      assert (s = 2 ^ (52 - l)) as -> by (unfold s, e; f_equal; lia).
      destruct (Z.le_gt_cases 0 l) as [Hl0|Hl0].
      + rewrite Z.max_l, Z.max_r, Z.pow_0_r, Z.mul_1_r in Hlow by lia.
        replace 52 with (l + (52 - l)) at 1 by lia.
        rewrite Z.pow_add_r by lia.
        pose proof (Z.pow_pos_nonneg 2 (52 - l) ltac:(lia) ltac:(lia)). nia.
      + rewrite Z.max_r, Z.max_l, Z.pow_0_r, Z.mul_1_r in Hlow by lia.
        replace (52 - l) with (52 + - l) by lia.
        rewrite Z.pow_add_r by lia.
        pose proof (Z.pow_pos_nonneg 2 52 ltac:(lia) ltac:(lia)). nia.
    - right. assert (s = 2 ^ 1074) as -> by (unfold s, e; f_equal; lia).
      apply Z.pow_lt_mono_r; lia. }
  set (m := round_half_even (a * s) b) in *.
  assert (Hm : 0 ≤ m).
  { unfold m. destruct (round_half_even_cases (a * s) b) as [->|[-> _]];
      pose proof (Z.div_pos (a * s) b ltac:(nia) ltac:(lia)); lia. }
  assert (Hsmall : ((0 <=? e) && (2 ^ 1024 <=? m * 2 ^ e)) = false).
  { destruct (Z.leb_spec 0 e) as [He0|]; [|done]. simpl.
    assert (e = 0) as Heq by lia.
    assert (s = 1) as Hs1 by (unfold s; by rewrite Heq).
    rewrite Hs1, Z.div_1_r in Hkeep. rewrite Heq, Z.pow_0_r, Z.mul_1_r.
    apply Z.leb_gt. rewrite Hkeep.
    pose proof (Z.div_le_upper_bound a b a ltac:(lia) ltac:(nia)).
    assert (2 ^ 53 < 2 ^ 1024) by (apply Z.pow_lt_mono_r; lia). lia. }
  rewrite Hsmall. eexists. split; [reflexivity|].
  rewrite <- Hkeep. rewrite !Z.mul_1_l. unfold dyadic, py_int.
  destruct (Z.leb_spec 0 e) as [He0|He0]; simpl.
  - assert (e = 0) as Heq by lia.
    assert (s = 1) as -> by (unfold s; by rewrite Heq).
    rewrite Heq, Z.pow_0_r, Z.mul_1_r, Z.quot_1_r. by rewrite Z.div_1_r.
  - fold s. rewrite Z2Pos.id by lia. apply Z.quot_div_nonneg; lia.
Qed.

Lemma py_int_truediv a b q :
  0 ≤ a < 2 ^ 53 → 1 ≤ b → py_truediv a b = inr q → py_int q = a `div` b.
Proof.
  intros Ha Hb Hq. destruct (py_truediv_floor a b Ha Hb) as (q' & Hq' & <-).
  congruence.
Qed.

(** From 2^53 + 1 on the quotient is rounded before [int] sees it, and a
    quotient of 2^1024 or more is refused. *)
Lemma py_truediv_rounds :
  py_truediv (2 ^ 53 + 1) 1 = inr (inject_Z (2 ^ 53))
  ∧ py_truediv (2 ^ 1024) 1 = inl OverflowError.
Proof. split; vm_compute; reflexivity. Qed.

Section Plots.

Context {X image : Type} (C : collaborators X image).
Implicit Types (w : world X) (t : list (event image)).

Lemma scaled_plots_length n x items outs x' :
  scaled_plots C n x items outs x' → length outs = length items.
Proof. induction 1; simpl; congruence. Qed.

Lemma person_body_plot dp n idx v w :
  plane_fits C → 1 ≤ n →
  wp (person_body C dp n idx v) w (λ r w' t,
    ∀ g, r = inr g → scaled_plots C n (ext w) [(idx, v)] [g] (ext w')).
Proof.
  intros Hfit Hn. unfold person_body. wp_steps; try done.
  all: intros g' [= <-]; simpl in *.
  all: match goal with
       | Hv : visualize_visualize _ _ _ _ = (inr ?u, _) |- _ => destruct u
       end.
  all: eapply scaled_cons; [eassumption| |constructor].
  all: match goal with
       | Hs : shape _ (visualize_plane _ ?x) = (_, _),
         Hr : cv2_resize _ _ _ _ = _ |- _ =>
           destruct (Hfit x) as [Hrows Hcols];
           rewrite Hs in Hrows, Hcols |- *; simpl in Hrows, Hcols |- *;
           rewrite <- Hr
       end.
  all: repeat match goal with
       | Hq : py_truediv _ (Z.max _ 1) = inr _ |- _ =>
           rewrite Z.max_l in Hq by lia;
           apply py_int_truediv in Hq; [rewrite Hq; clear Hq|lia..]
       end.
  all: done.
Qed.

Lemma scaled_plots_app n x items1 outs1 x1 items2 outs2 x2 :
  scaled_plots C n x items1 outs1 x1 → scaled_plots C n x1 items2 outs2 x2 →
  scaled_plots C n x (items1 ++ items2) (outs1 ++ outs2) x2.
Proof.
  induction 1; simpl; [done|]. intros Hrest. econstructor; eauto.
Qed.

Lemma for_persons_plots dp n items : plane_fits C → 1 ≤ n → ∀ graphs w,
  wp (for_persons C dp n items graphs) w (λ r w' t,
    ∀ gs, r = inr gs →
    ∃ outs, gs = graphs ++ outs ∧ scaled_plots C n (ext w) items outs (ext w')).
Proof.
  intros Hfit Hn. induction items as [|[idx v] items IH]; intros graphs w; simpl.
  - wp_steps. intros gs [= <-]. exists []. rewrite app_nil_r.
    split; [done | constructor].
  - wp_step. wp_use (person_body_plot dp n idx v w Hfit Hn).
    intros [e|g] w1 t1 Hfst; [done|]. specialize (Hfst g eq_refl).
    wp_use IH. intros r w2 t2 Hsnd gs ->.
    destruct (Hsnd gs eq_refl) as (outs & -> & Hrest).
    exists (g :: outs). split; [by rewrite <- app_assoc|].
    by apply (scaled_plots_app n _ [(idx, v)] [g] (ext w1) items outs).
Qed.

(** C7. For a frame with N >= 1 detected persons whose plots are all
    produced, each person's plane, of [h] rows and [w] columns, is resized
    to [(floor (w / N), floor (h / N))], and the N resized plots are kept
    in the arrival order of the mapping: they are the plot of the frame when
    N = 1 and the arguments of [custom_concat], in that order, when N > 1.
    The plane has fewer than 2^53 rows and columns, so that the float
    quotient of the code, once truncated, is the floor. *)
Theorem plots_scaled_by_count dp emots w g w' t :
  plane_fits C →
  emots ≠ [] →
  emotion_graph C dp emots w = (inr g, w', t) →
  let n := Z.of_nat (length emots) in
  ∃ outs x,
    scaled_plots C n (ext w) emots outs x
    ∧ length outs = length emots
    ∧ (n = 1 → outs = [g] ∧ x = ext w')
    ∧ (1 < n → custom_concat C outs x = (inr g, ext w')
               ∧ In (EvCustomConcat outs) t).
Proof.
  intros Hfit Hne Hrun n.
  cut (∀ r, emotion_graph C dp emots w = (r, w', t) → ∀ g, r = inr g →
         ∃ outs x,
           scaled_plots C n (ext w) emots outs x
           ∧ length outs = length emots
           ∧ (n = 1 → outs = [g] ∧ x = ext w')
           ∧ (1 < n → custom_concat C outs x = (inr g, ext w')
                      ∧ In (EvCustomConcat outs) t)).
  { eauto. }
  clear g Hrun. intros r Hrun. wp_start Hrun.
  unfold emotion_graph. destruct emots as [|item emots]; [done|].
  fold n. assert (Hn : 1 ≤ n) by (unfold n; simpl; lia).
  wp_step. wp_use (for_persons_plots dp n (item :: emots) Hfit Hn).
  intros [e|graphs] w1 t1 Hfst; [done|].
  destruct (Hfst graphs eq_refl) as (outs & -> & Hplots). clear Hfst.
  pose proof (scaled_plots_length _ _ _ _ _ Hplots) as Hlen.
  simpl app. wp_step.
  - wp_step; [done|]. intros g [= <-]. exists outs, (ext w1).
    split; [done|]. split; [done|]. split; [lia|]. intros _.
    split; [done|]. apply in_or_app. right. by left.
  - destruct outs as [|g0 outs]; [done|]. wp_steps. intros g [= <-].
    assert (outs = []) as ->.
    { destruct outs; [done|]. simpl in *. lia. }
    exists [g0], (ext w1). split; [done|]. split; [done|].
    split; [done|]. lia.
Qed.

End Plots.

(** C7 on a frame with two persons: two plots of 250 x 250. *)
Lemma plots_scaled_by_count_witness :
  let w := World [] Demo.disk true in
  let out := emotion_graph Demo.collab Demo.data_path (Demo.faces Demo.pair_frame) w in
  plane_fits Demo.collab
  ∧ out.1.1 = inr Demo.plane
  ∧ ∃ outs x,
      scaled_plots Demo.collab 2 (ext w) (Demo.faces Demo.pair_frame) outs x
      ∧ outs = [Demo.DemoImage 250 250 []; Demo.DemoImage 250 250 []]
      ∧ In (EvCustomConcat outs) out.2.
Proof.
  intros w out.
  assert (Hfit : plane_fits Demo.collab) by (intros x; split; reflexivity).
  destruct (plots_scaled_by_count Demo.collab Demo.data_path
              (Demo.faces Demo.pair_frame) w Demo.plane out.1.2 out.2 Hfit)
    as (outs & x & Hplots & _ & _ & Hmany); [done|vm_compute; reflexivity|].
  destruct Hmany as [_ Hin]; [done|].
  split; [exact Hfit|].
  split; [vm_compute; reflexivity|]. exists outs, x.
  split; [exact Hplots|]. split; [|exact Hin].
  inversion Hplots as [|? ? ? ? ? ? ? ? ? Hv1 Hr1 Hrest]; subst.
  inversion Hrest as [|? ? ? ? ? ? ? ? ? Hv2 Hr2 Hend]; subst.
  inversion Hend; subst.
  vm_compute in Hr1, Hr2. by simplify_eq.
Defined.

(** ** The placeholder plot of a frame without faces *)

Section Placeholder.

Context {X image : Type} (C : collaborators X image).
Implicit Types (w : world X) (t : list (event image)).

Lemma dict_fromkeys_fold keys v k : ∀ d,
  dict_get (fold_left (λ d k, dict_set d k v) keys d) k
  = if bool_decide (k ∈ keys) then Some v else dict_get d k.
Proof.
  induction keys as [|a keys IH]; intros d; simpl; [done|].
  rewrite IH. destruct (decide (k ∈ keys)) as [Hin|Hnin].
  - rewrite !bool_decide_eq_true_2; [done| |done]. by right.
  - rewrite (bool_decide_eq_false_2 _ Hnin).
    destruct (decide (k = a)) as [->|Hne].
    + rewrite bool_decide_eq_true_2 by by left. apply dict_get_set_eq.
    + rewrite bool_decide_eq_false_2; [by apply dict_get_set_ne|].
      intros Hc. apply elem_of_cons in Hc as [?|?]; done.
Qed.

(** [dict.fromkeys(keys, v)] binds exactly the keys, each to [v]. *)
Lemma dict_fromkeys_get keys v k :
  dict_get (dict_fromkeys keys v) k = if bool_decide (k ∈ keys) then Some v else None.
Proof. unfold dict_fromkeys. by rewrite dict_fromkeys_fold. Qed.

(** Without a repeated label, the last label is not among the others. *)
Lemma py_init_last (keys : list string) k :
  NoDup keys → last keys = Some k → k ∉ py_init keys.
Proof.
  intros Hnd Hlast. unfold py_init.
  destruct (decide (keys = [])) as [->|Hne]; [done|].
  pose proof (app_removelast_last k Hne) as Hsplit.
  assert (List.last keys k = k) as Hk.
  { clear -Hlast. induction keys as [|a [|b keys] IH]; simpl in *;
      [done|congruence|by apply IH]. }
  rewrite Hk in Hsplit. rewrite Hsplit in Hnd.
  apply NoDup_app in Hnd as (_ & Hdisj & _). intros Hin.
  apply (Hdisj k Hin). by left.
Qed.

(** C8. On a frame for which the classifier returns the empty mapping
    (and whose resize to 700 x 500 succeeds), the renderer is called exactly
    once, for the identity "unknown" and the vector that binds every label
    of [line_angles] but the last to 0; nothing is written and no file
    changes.  When the iteration completes, the plane left by that call is
    the image that is resized to 500 x 500 and put beside the frame. *)
Theorem placeholder_plot width height dp win frame w f1 x1 f2 x2 f3 x3 r w' t :
  face_drawBbox C frame (ext w) = (inr f1, x1) →
  emotion_labelEmotion C f1 x1 = (inr (f2, []), x2) →
  cv2_resize C f2 (700, 500) x2 = (inr f3, x3) →
  iteration C width height dp win frame w = (r, w', t) →
  let keys := visualize_line_angles C x3 in
  let probs := PDict (dict_fromkeys (py_init keys) (PInt 0)) in
  count is_visualize t = 1%nat
  ∧ In (EvVisualize (PStr "unknown") probs) t
  ∧ count is_write t = 0%nat
  ∧ fs w' = fs w
  ∧ (∀ quit, r = inr quit →
       ∃ x4 g c c',
         visualize_visualize C (PStr "unknown") probs x3 = (inr tt, x4)
         ∧ t = [EvDrawBbox; EvLabelEmotion; EvDetected [];
                EvResize f2 (700, 500); EvLineAngles;
                EvVisualize (PStr "unknown") probs;
                EvResize (visualize_plane C x4) (500, 500);
                EvNpConcatenate [f3; g]; EvResize c (width, height);
                EvImshow win c'; EvWaitKey])
  ∧ (∀ label, label ∈ py_init keys → pyval_get probs label = Some (PInt 0))
  ∧ (∀ label, label ∉ py_init keys → pyval_get probs label = None)
  ∧ (∀ label, NoDup keys → last keys = Some label →
       pyval_get probs label = None).
Proof.
  intros Hbbox Hlabel Hresize Hrun keys probs.
  assert (Hin : ∀ label, label ∈ py_init keys →
                         pyval_get probs label = Some (PInt 0)).
  { intros label Hl. simpl. rewrite dict_fromkeys_get.
    by rewrite bool_decide_eq_true_2. }
  assert (Hout : ∀ label, label ∉ py_init keys → pyval_get probs label = None).
  { intros label Hl. simpl. rewrite dict_fromkeys_get.
    by rewrite bool_decide_eq_false_2. }
  cut (count is_visualize t = 1%nat
       ∧ In (EvVisualize (PStr "unknown") probs) t
       ∧ count is_write t = 0%nat
       ∧ fs w' = fs w
       ∧ (∀ quit, r = inr quit →
            ∃ x4 g c c',
              visualize_visualize C (PStr "unknown") probs x3 = (inr tt, x4)
              ∧ t = [EvDrawBbox; EvLabelEmotion; EvDetected [];
                     EvResize f2 (700, 500); EvLineAngles;
                     EvVisualize (PStr "unknown") probs;
                     EvResize (visualize_plane C x4) (500, 500);
                     EvNpConcatenate [f3; g]; EvResize c (width, height);
                     EvImshow win c'; EvWaitKey])).
  { intros (H1 & H2 & H3 & H4 & H5). do 7 (split; [done|]).
    intros label Hnd Hlast. apply Hout. by apply py_init_last. }
  clear Hin Hout. wp_start Hrun. unfold iteration. subst keys probs.
  wp_steps; cbn [ext set_ext] in *; same_calls.
  unfold emotion_graph.
  wp_steps; cbn [ext set_ext fs] in *; count_simpl; simpl;
    (split; [lia|]); (split; [tauto|]); (split; [lia|]); (split; [done|]);
    try done.
  intros quit _.
  repeat match goal with u : () |- _ => destruct u end.
  eauto 10.
Qed.

End Placeholder.

(** C8 on a frame without faces: one call, zeros for all labels but "fps". *)
Lemma placeholder_plot_witness :
  let w := World [] Demo.disk true in
  let out :=
    iteration Demo.collab 1200 400 Demo.data_path "Emotion Detection"
      Demo.blank_frame w in
  let probs := PDict [("happy", PInt 0); ("sad", PInt 0)] in
  out.1.1 = inr false
  ∧ count is_visualize out.2 = 1%nat
  ∧ In (EvVisualize (PStr "unknown") probs) out.2
  ∧ count is_write out.2 = 0%nat
  ∧ pyval_get probs "fps" = None.
Proof.
  intros w out probs.
  destruct (placeholder_plot Demo.collab 1200 400 Demo.data_path
              "Emotion Detection" Demo.blank_frame w
              Demo.blank_frame [] Demo.blank_frame []
              (Demo.DemoImage 500 700 []) [] out.1.1 out.1.2 out.2)
    as (Hone & Hin & Hw & _); try (vm_compute; reflexivity).
  split; [vm_compute; reflexivity|]. split; [exact Hone|].
  split; [exact Hin|]. split; [exact Hw|]. reflexivity.
Defined.

(** ** A log that is not a JSON object *)

Section Corrupt.

Context {X image : Type} (C : collaborators X image).
Implicit Types (w : world X) (t : list (event image)).

Lemma setdefault_append_not_dict records key x :
  match records with PDict _ => False | _ => True end →
  setdefault_append records key x = inl (AttributeError "setdefault").
Proof. by destruct records. Qed.

Lemma corrupt_cases (files : gmap string node) dp :
  corrupt files dp = true →
  (∃ raw, files !! dp = Some (File (Text raw)))
  ∨ (∃ records, files !! dp = Some (File (Json records))
                ∧ match records with PDict _ => False | _ => True end).
Proof.
  unfold corrupt, regular.
  destruct (files !! dp) as [[|[raw|records]]|]; try done; [eauto|].
  intros Hc. right. exists records. split; [done|]. by destruct records.
Qed.

Lemma person_body_refused dp n idx v w :
  corrupt (fs w) dp = true →
  wp (person_body C dp n idx v) w (λ r w' t, refused dp [(idx, v)] w r w' t).
Proof.
  intros Hc. apply corrupt_cases in Hc.
  unfold person_body. wp_steps; cbn [fs set_ext] in *.
  all: try (repeat split; count_simpl; simpl; try done; lia).
  all: destruct Hc as [[raw0 Hraw]|(records0 & Hrec & Hkind)]; simplify_eq.
  all: try match goal with
           | Happ : setdefault_append _ _ _ = _ |- _ =>
               rewrite setdefault_append_not_dict in Happ by done; simplify_eq
           end.
  all: repeat split; count_simpl; simpl; try done; try lia.
  all: intros _; eexists; unfold regular;
    match goal with Hlook : fs _ !! _ = _ |- _ => rewrite Hlook end; done.
Qed.

(** An error passes through the enclosing computation unchanged. *)
Lemma refused_raised {A B} dp items items' w e w' t :
  refused (A := A) dp items w (inl e) w' t → items ≠ [] → items' ≠ [] →
  refused (A := B) dp items' w (inl e) w' t.
Proof.
  intros (Hfs & Hw & Hf & Hnever & Hnone & Hlog) Hne Hne'.
  repeat split; try done.
  intros Hl. destruct (Hlog Hl) as (c & Hreg & Hr & Hlast).
  exists c. by simplify_eq.
Qed.

Lemma for_persons_refused dp n items : ∀ graphs w,
  corrupt (fs w) dp = true →
  wp (for_persons C dp n items graphs) w (λ r w' t, refused dp items w r w' t).
Proof.
  destruct items as [|[idx v] items]; intros graphs w Hc; simpl.
  - wp_steps. by repeat split.
  - wp_step. wp_use (person_body_refused dp n idx v w Hc).
    intros [e|g] w1 t1 Hfst.
    + by apply (refused_raised (A := image) dp [(idx, v)]).
    + destruct Hfst as (_ & _ & _ & Hnever & _). by destruct (Hnever ltac:(done) g).
Qed.

Lemma emotion_graph_refused dp emots w :
  corrupt (fs w) dp = true →
  wp (emotion_graph C dp emots) w (λ r w' t, refused dp emots w r w' t).
Proof.
  intros Hc. unfold emotion_graph. destruct emots as [|item emots].
  - wp_steps; repeat split; count_simpl; simpl; try done; lia.
  - wp_step.
    wp_use (for_persons_refused dp (Z.of_nat (length (item :: emots)))
              (item :: emots) [] w Hc).
    intros [e|g] w1 t1 Hfst.
    + by apply (refused_raised (A := list image) dp (item :: emots)).
    + destruct Hfst as (_ & _ & _ & Hnever & _). by destruct (Hnever ltac:(done) g).
Qed.

Lemma blocked_then {A B} dp w w1 w2 (a : A) (r : exn + B) t1 t2 :
  blocked dp w (inr a) w1 t1 → blocked dp w1 r w2 t2 →
  blocked dp w r w2 (t1 ++ t2).
Proof.
  intros (R1 & W1 & F1 & Z1 & L1) (R2 & W2 & F2 & Z2 & L2).
  destruct (Z1 a eq_refl) as [Zf Zl].
  unfold blocked. count_simpl. rewrite Zf, Zl, W1, W2, R2, R1. simpl.
  split; [done|]. split; [done|]. split; [done|]. split.
  - intros b Hb. exact (Z2 b Hb).
  - intros Hl. destruct (L2 Hl) as (c & Hc & Hr & Hf & Hlast).
    exists c. rewrite <- R1, Hc, Hr, Hf, last_app, Hlast. done.
Qed.

Lemma blocked_quiet {A} dp w w' (r : exn + A) t :
  regular (fs w') dp = regular (fs w) dp →
  count is_write t = 0%nat → count is_face_detection t = 0%nat →
  count is_log_check t = 0%nat →
  blocked dp w r w' t.
Proof.
  intros R W F L. unfold blocked. rewrite R, W, F, L.
  split; [done|]. split; [done|]. split; [lia|]. split; [done|]. done.
Qed.

Lemma blocked_raised {A B} dp w e w' t :
  blocked (A := A) dp w (inl e) w' t → blocked (A := B) dp w (inl e) w' t.
Proof.
  intros (R & W & F & Z & L).
  split; [done|]. split; [done|]. split; [done|]. split; [done|].
  intros Hl. destruct (L Hl) as (c & ? & ? & ? & ?). exists c. by simplify_eq.
Qed.

Lemma blocked_returned {A B} dp w (a : A) (b : B) w' t :
  blocked dp w (inr a) w' t → blocked dp w (inr b) w' t.
Proof.
  intros (R & W & F & Z & L).
  split; [done|]. split; [done|]. split; [done|]. split.
  - intros _ _. exact (Z a eq_refl).
  - intros Hl. by destruct (L Hl) as (c & _ & ? & _).
Qed.

Lemma corrupt_regular (files files' : gmap string node) dp :
  regular files' dp = regular files dp → corrupt files dp = true →
  corrupt files' dp = true.
Proof. unfold corrupt. by intros ->. Qed.

Ltac calm := cbn beta iota in *; cbn [fs set_ext set_fs set_cap] in *;
  apply blocked_quiet; [done | by count_simpl..].

Lemma iteration_blocked width height dp win frame w :
  corrupt (fs w) dp = true →
  wp (iteration C width height dp win frame) w (λ r w' t, blocked dp w r w' t).
Proof.
  intros Hc. unfold iteration. wp_steps; try calm.
  - destruct l; unfold blocked; count_simpl; simpl; repeat split; done || lia.
  - match goal with
    | |- wp (emotion_graph _ _ ?emots) ?w0 _ =>
        wp_use (emotion_graph_refused dp emots w0 Hc)
    end.
    intros [e|g] w1 t1 (Hfs & Hw & Hf & Hnever & Hnone & Hlog); simpl in Hfs.
    + unfold blocked. count_simpl. rewrite Hw, Hf, Hfs. simpl.
      split; [done|]. split; [done|]. split; [destruct l; simpl; lia|].
      split; [done|]. intros Hl.
      destruct Hlog as (c & Hreg & Hr & Hlast); [done|].
      exists c. split; [done|]. split; [by simplify_eq|]. split.
      * destruct l; [by specialize (Hnone eq_refl) | done].
      * by rewrite last_cons, Hlast.
    + destruct l as [|item l]; [|by destruct (Hnever ltac:(done) g)].
      specialize (Hnone eq_refl).
      wp_steps; unfold blocked; cbn [fs set_ext]; count_simpl;
        rewrite ?Hw, ?Hf, ?Hnone, ?Hfs; simpl;
        (split; [done|]); (split; [done|]); (split; [lia|]); by split.
Qed.

Lemma while_loop_blocked width height dp win frames : ∀ w,
  corrupt (fs w) dp = true →
  wp (while_loop C width height dp win frames) w (λ r w' t, blocked dp w r w' t).
Proof.
  induction frames as [|frame frames IH]; intros w Hc; simpl.
  - wp_steps; calm.
  - wp_steps; try calm.
    wp_use (iteration_blocked width height dp win frame w Hc).
    intros [e|[]] w1 t1 Hfst.
    + apply (blocked_then dp w w w1 tt (inl e) [_; _] t1); [calm|].
      by apply (blocked_raised (A := bool)).
    + wp_steps. rewrite app_nil_r.
      apply (blocked_then dp w w w1 tt (inr tt) [_; _] t1); [calm|].
      by apply (blocked_returned dp w true).
    + assert (Hc1 : corrupt (fs w1) dp = true).
      { destruct Hfst as (R & _). by apply (corrupt_regular (fs w)). }
      wp_use (IH w1 Hc1). intros r w2 t2 Hsnd.
      apply (blocked_then dp w w w2 tt r [_; _] (t1 ++ t2)); [calm|].
      by apply (blocked_then dp w w1 w2 false r t1 t2).
Qed.

(** C9. When the log path holds a regular file that is not a JSON object
    (text that does not parse, or a JSON value of another kind), a run
    never writes to it and leaves it as it is.  The run detects a face at
    most once and does not return once it has: in the first frame with a
    face, if the plot of the first person is produced, the logging step
    finds the path taken, skips the initial write, and ends the run by the
    error of the load ([JSONDecodeError]) or of [setdefault]
    ([AttributeError]), right after reading the file and without any
    cleanup call. *)
Theorem corrupt_log_stops_run vp width height dp win w r w' t :
  corrupt (fs w) dp = true →
  process_video C vp width height dp win w = (r, w', t) →
  regular (fs w') dp = regular (fs w) dp
  ∧ count is_write t = 0%nat
  ∧ (count is_face_detection t ≤ 1)%nat
  ∧ (∀ a, r = inr a → count is_face_detection t = 0%nat)
  ∧ (count is_log_check t ≠ 0%nat →
     ∃ c, regular (fs w) dp = Some c ∧ r = inl (load_failure c)
          ∧ count is_face_detection t = 1%nat
          ∧ last t = Some (EvFileRead dp)
          ∧ count is_cleanup t = 0%nat).
Proof.
  intros Hc Hrun.
  cut (blocked dp w r w' t
       ∧ (last t = Some (EvFileRead dp) → count is_cleanup t = 0%nat)).
  { intros [(R & W & F & Z & L) Hclean].
    split; [done|]. split; [done|]. split; [done|]. split.
    - intros a Ha. by destruct (Z a Ha).
    - intros Hl. destruct (L Hl) as (c & ? & ? & ? & Hlast).
      exists c. repeat (split; [done|]). by apply Hclean. }
  wp_start Hrun. unfold process_video.
  do 3 wp_step; [wp_steps; split; [calm|by count_simpl]|].
  wp_step. apply wp_VideoCapture. intros [e|frames] w1 Hfs; wp_simpl.
  { split; [|by count_simpl]. apply blocked_quiet; [by rewrite Hfs|done..]. }
  do 3 wp_step.
  { wp_steps. split; [|by count_simpl].
    apply blocked_quiet; [by rewrite Hfs|done..]. }
  wp_step. apply wp_os_makedirs. intros [e|[]] files Hreg; wp_simpl.
  { split; [|by count_simpl].
    apply blocked_quiet; [by rewrite Hreg, Hfs|done..]. }
  assert (Hpre : blocked (image := image) dp w (inr tt : exn + unit)
                   (set_fs files w1)
                   [EvPathExists vp; EvVideoCapture vp; EvIsOpened;
                    EvMakedirs (path_parent C dp)]).
  { apply blocked_quiet; [simpl; by rewrite Hreg, Hfs|done..]. }
  assert (Hc1 : corrupt (fs (set_fs files w1)) dp = true).
  { apply (corrupt_regular (fs w)); [|done]. simpl. by rewrite Hreg, Hfs. }
  wp_step.
  eapply wp_mono;
    [apply wp_conj;
       [apply (while_loop_blocked width height dp win frames _ Hc1)
       |apply (while_loop_no_cleanup C width height dp win frames)]|].
  intros [e|[]] w2 t2 [Hloop [Hquiet _]]; wp_simpl.
  - split.
    + apply (blocked_then dp w _ w2 tt (inl e) [_; _; _; _] t2 Hpre).
      by apply (blocked_raised (A := unit)).
    + intros _. count_simpl. by rewrite Hquiet.
  - do 2 wp_step. apply wp_extern. intros r0 x Hx. split.
    + apply (blocked_then dp w _ _ tt r0 [_; _; _; _] (t2 ++ [_; _]) Hpre).
      apply (blocked_then dp _ w2 _ tt r0 t2 [_; _] Hloop).
      by apply blocked_quiet.
    + simpl. rewrite !last_cons, last_app. simpl. done.
Qed.

End Corrupt.

(** C9 on a log that holds a JSON array: the run ends in the second frame,
    the first with a face, and the file is untouched. *)
Lemma corrupt_log_stops_run_witness :
  let files := <[Demo.data_path := File (Json (PList []))]> Demo.disk in
  let out := Demo.run "late.mp4" (Demo.start [] files) in
  corrupt files Demo.data_path = true
  ∧ out.1.1 = inl (AttributeError "setdefault")
  ∧ regular (fs out.1.2) Demo.data_path = Some (Json (PList []))
  ∧ count is_write out.2 = 0%nat
  ∧ count is_face_detection out.2 = 1%nat
  ∧ last out.2 = Some (EvFileRead Demo.data_path)
  ∧ count is_cleanup out.2 = 0%nat.
Proof.
  intros files out.
  assert (Hc : corrupt files Demo.data_path = true) by (vm_compute; reflexivity).
  destruct (corrupt_log_stops_run Demo.collab "late.mp4" 1200 400
              Demo.data_path "Emotion Detection" (Demo.start [] files)
              out.1.1 out.1.2 out.2 Hc)
    as (Hreg & Hw & _ & _ & Hlog); [vm_compute; reflexivity|].
  destruct Hlog as (c & Hfile & Hr & Hface & Hlast & Hclean);
    [vm_compute; discriminate|].
  split; [exact Hc|]. split; [vm_compute; reflexivity|].
  split; [rewrite Hreg; vm_compute; reflexivity|].
  split; [exact Hw|]. split; [exact Hface|]. split; [exact Hlast|exact Hclean].
Defined.

(** * Further properties of the run *)

(** ** What every step of the loop does to the file system

    A property of (files before, events, files after) that holds of steps
    without file events, composes along sequencing and holds of every
    outcome of the logging step holds of each part of the loop. *)

Section FileInvariant.

Context {X image : Type} (C : collaborators X image) (dp : string).
Implicit Types (w : world X) (t : list (event image)).

Variable P : gmap string node → list (event image) → gmap string node → Prop.

Hypothesis P_quiet : ∀ files t, count is_file_event t = 0%nat → P files t files.
Hypothesis P_seq : ∀ f1 t1 f2 t2 f3,
  P f1 t1 f2 → P f2 t2 f3 → P f1 (t1 ++ t2) f3.
Hypothesis P_log : ∀ key v w r w' t,
  log_outcome dp key v w r w' t → P (fs w) t (fs w').

Lemma P_wrap pre t post f f' :
  count is_file_event pre = 0%nat → P f t f' →
  count is_file_event post = 0%nat → P f (pre ++ t ++ post) f'.
Proof.
  intros Hpre Ht Hpost.
  apply (P_seq f pre f); [by apply P_quiet|].
  apply (P_seq f t f'); [done | by apply P_quiet].
Qed.

Lemma P_after pre t f f' :
  count is_file_event pre = 0%nat → P f t f' → P f (pre ++ t) f'.
Proof. intros Hpre Ht. apply (P_seq f pre f); [by apply P_quiet | done]. Qed.

Ltac hush := cbn beta iota in *; cbn [fs set_ext set_fs set_cap];
  apply P_quiet; by count_simpl.

Lemma person_body_files n idx v w :
  wp (person_body C dp n idx v) w (λ _ w' t, P (fs w) t (fs w')).
Proof.
  unfold person_body. wp_steps_keep; try hush.
  match goal with
  | Hout : log_outcome _ _ _ _ ?r _ _ |- _ =>
      apply P_log in Hout; destruct r as [e|[]]
  end.
  - by apply (P_after [_; _]).
  - wp_steps. by apply (P_wrap [_; _] _ []).
Qed.

Lemma for_persons_files n items : ∀ graphs w,
  wp (for_persons C dp n items graphs) w (λ _ w' t, P (fs w) t (fs w')).
Proof.
  induction items as [|[idx v] items IH]; intros graphs w; simpl.
  - wp_steps; hush.
  - wp_step. wp_use person_body_files. intros [e|g] w1 t1 Hfst; [done|].
    wp_use IH. intros r w2 t2 Hsnd. by apply (P_seq _ _ (fs w1)).
Qed.

Lemma emotion_graph_files emots w :
  wp (emotion_graph C dp emots) w (λ _ w' t, P (fs w) t (fs w')).
Proof.
  unfold emotion_graph. destruct emots as [|item emots].
  - wp_steps; hush.
  - wp_step. wp_use for_persons_files. intros [e|graphs] w1 t1 Hfst; [done|].
    wp_step; [wp_steps|destruct graphs; wp_steps];
      apply (P_seq _ _ (fs w1)); (done || hush).
Qed.

Lemma iteration_files width height win frame w :
  wp (iteration C width height dp win frame) w (λ _ w' t, P (fs w) t (fs w')).
Proof.
  unfold iteration. wp_steps; try hush.
  wp_use emotion_graph_files. intros [e|g] w1 t1 Hfst.
  - by apply (P_after [_; _; _; _]).
  - wp_steps; by apply (P_wrap [_; _; _; _]).
Qed.

Lemma while_loop_files width height win frames : ∀ w,
  wp (while_loop C width height dp win frames) w (λ _ w' t, P (fs w) t (fs w')).
Proof.
  induction frames as [|frame frames IH]; intros w; simpl.
  - wp_steps; hush.
  - wp_steps; try hush.
    wp_use iteration_files. intros [e|[]] w1 t1 Hfst.
    + by apply (P_after [_; _]).
    + wp_steps. by apply (P_wrap [_; _] _ []).
    + wp_use IH. intros r w2 t2 Hsnd.
      apply (P_after [_; _]); [done|]. by apply (P_seq _ _ (fs w1)).
Qed.

(** The whole run, given what creating the log directory does. *)
Hypothesis P_dir : ∀ files,
  files !! path_parent C dp = None →
  P files [EvMakedirs (path_parent C dp)] (<[path_parent C dp := Dir]> files).

Lemma os_makedirs_files w :
  wp (os_makedirs (image := image) (path_parent C dp)) w
    (λ _ w' t, P (fs w) t (fs w')).
Proof.
  unfold wp, os_makedirs.
  destruct (fs w !! path_parent C dp) as [[|c]|] eqn:E; simpl;
    [by apply P_quiet..|by apply P_dir].
Qed.

Lemma process_video_files vp width height win w :
  wp (process_video C vp width height dp win) w (λ _ w' t, P (fs w) t (fs w')).
Proof.
  unfold process_video. do 3 wp_step; [wp_steps; hush|].
  wp_step. apply wp_VideoCapture. intros [e|frames] w1 Hfs; wp_simpl.
  { rewrite Hfs. by apply P_quiet. }
  do 3 wp_step; [wp_steps; rewrite Hfs; by apply P_quiet|].
  wp_step. wp_use os_makedirs_files. intros [e|[]] w2 t2 Hdir.
  { rewrite <- Hfs. by apply (P_after [_; _; _]). }
  wp_step. wp_use while_loop_files. intros [e|[]] w3 t3 Hloop.
  { rewrite <- Hfs. apply (P_after [_; _; _]); [done|].
    by apply (P_seq _ _ (fs w2)). }
  do 2 wp_step. apply wp_extern. intros r x Hx. cbn [fs set_ext set_cap].
  rewrite <- Hfs. apply (P_after [_; _; _]); [done|].
  apply (P_seq _ _ (fs w2)); [done|].
  apply (P_seq _ _ (fs w3)); [done|]. by apply P_quiet.
Qed.

End FileInvariant.

(** ** The logging step, outcome by outcome *)

Section LoggingStep.

Context {X image : Type}.
Implicit Types (w : world X) (t : list (event image)).

Lemma dict_set_keys d k v :
  map fst (dict_set d k v)
  = map fst d ++ match dict_get d k with Some _ => [] | None => [k] end.
Proof.
  induction d as [|[k' v'] d IH]; simpl; [done|].
  destruct (String.eqb k' k); simpl; [by rewrite app_nil_r | by rewrite IH].
Qed.

Lemma setdefault_append_keys d key x d' :
  setdefault_append (PDict d) key x = inr (PDict d') →
  map fst d' = map fst d ++ match dict_get d key with Some _ => [] | None => [key] end.
Proof.
  unfold setdefault_append, py_setdefault.
  destruct (dict_get d key) as [value|] eqn:E; simpl.
  - destruct value; try done. intros [= <-]. by rewrite dict_set_keys, E.
  - intros [= <-]. rewrite !dict_set_keys, dict_get_set_eq, E.
    by rewrite app_nil_r.
Qed.


(** A step that returns keeps the keys of the document in their order and
    puts the key of a person not logged before at the end. *)
Lemma log_person_keys dp idx v w w' t :
  log_person (image := image) dp idx v w = (inr tt, w', t) →
  log_keys (fs w') dp
  = log_keys (fs w) dp
    ++ match log_lookup (fs w) dp (py_str (idx + 1)) with
       | Some _ => []
       | None => [py_str (idx + 1)]
       end.
Proof.
  rewrite log_person_eq. cbv zeta. unfold log_keys, log_lookup, regular.
  destruct (fs w !! dp) as [[|[raw|records]]|] eqn:E; try done.
  - destruct (setdefault_append records _ v) as [e|records'] eqn:Ea; [done|].
    intros [= <- <-]. simpl. rewrite lookup_insert_eq.
    destruct records as [| | | | | |d]; try done.
    assert (∃ d', records' = PDict d') as [d' ->].
    { revert Ea. unfold setdefault_append, py_setdefault.
      destruct (dict_get d _) as [value|]; simpl;
        [destruct value; try done|]; intros [= <-]; eauto. }
    by apply (setdefault_append_keys d _ v).
  - intros [= <- <-]. simpl. by rewrite lookup_insert_eq.
Qed.

End LoggingStep.


(** ** The paths a run touches *)

Section Paths.

Context {X image : Type} (C : collaborators X image).
Implicit Types (w : world X) (t : list (event image)).

Lemma kept_refl dp parent files : kept dp parent files files.
Proof. by repeat split. Qed.

Lemma kept_trans dp parent f1 f2 f3 :
  kept dp parent f1 f2 → kept dp parent f2 f3 → kept dp parent f1 f3.
Proof.
  intros (A1 & B1 & C1 & D1) (A2 & B2 & C2 & D2). repeat split.
  - intros p Hp Hsome. rewrite A2, A1; [done..|]. by rewrite A1.
  - intros p Hp Hq. by rewrite B2, B1.
  - intros p Hdir. by apply C2, C1.
  - intros p Hsome. by apply D2, D1.
Qed.

Lemma kept_insert_log dp parent (files : gmap string node) c :
  files !! dp ≠ Some Dir →
  kept dp parent files (<[dp := File c]> files).
Proof.
  intros Hnd. repeat split.
  - intros p Hp _. by rewrite lookup_insert_ne.
  - intros p Hp _. by rewrite lookup_insert_ne.
  - intros p Hdir. rewrite lookup_insert_ne; [done|]. by intros ->.
  - intros p Hsome. destruct (decide (dp = p)) as [->|Hne].
    + by rewrite lookup_insert_eq.
    + by rewrite lookup_insert_ne.
Qed.

Lemma kept_log dp parent key v w r w' t :
  log_outcome (image := image) dp key v w r w' t →
  kept dp parent (fs w) (fs w').
Proof.
  intros Hout. inversion Hout; subst; simpl; try apply kept_refl;
    apply kept_insert_log; congruence.
Qed.







(** The parent directory of the log, as [os.makedirs] leaves it. *)
Lemma os_makedirs_made d w :
  wp (os_makedirs (image := image) d) w (λ r w' t,
    t = [EvMakedirs d] ∧ ∀ a, r = inr a → fs w' !! d = Some Dir).
Proof.
  unfold wp, os_makedirs.
  destruct (fs w !! d) as [[|c]|] eqn:E; simpl; (split; [done|]); try done.
  intros _ _. by rewrite lookup_insert_eq.
Qed.


(** X5. Once a run has asked the stream for a frame, the parent directory of the
    log exists, also when no face is ever detected and nothing is logged. *)
Theorem log_directory_made vp width height dp win w r w' t :
  process_video C vp width height dp win w = (r, w', t) →
  count is_read t ≠ 0%nat →
  fs w' !! path_parent C dp = Some Dir.
Proof.
  intros Hrun. wp_start Hrun. unfold process_video.
  do 3 wp_step; [wp_steps; by count_simpl|].
  wp_step. apply wp_VideoCapture. intros [e|frames] w1 Hfs; wp_simpl;
    [by count_simpl|].
  do 3 wp_step; [wp_steps; by count_simpl|].
  wp_step. wp_use os_makedirs_made. intros [e|[]] w2 t2 [-> Hdir];
    [by count_simpl|].
  specialize (Hdir tt eq_refl).
  wp_step.
  wp_use (while_loop_files C dp (λ f _ f', kept dp (path_parent C dp) f f')
            (λ f _ _, kept_refl dp _ f)
            (λ f1 _ f2 _ f3, kept_trans dp _ f1 f2 f3)
            (λ key v w0 r0 w3 t0, kept_log dp _ key v w0 r0 w3 t0)
            width height win frames).
  intros [e|[]] w3 t3 (_ & _ & Hkeep & _); wp_simpl.
  - intros _. by apply Hkeep.
  - do 2 wp_step. apply wp_extern. intros r0 x Hx _. by apply Hkeep.
Qed.

(** X6. When the parent path of the log is a regular file, a run that has
    opened the stream ends at [os.makedirs] by [FileExistsError]: no frame
    is read, and the handle it has opened is not released. *)
Theorem log_directory_is_a_file vp width height dp win w frames x c :
  exists_b (fs w) vp = true →
  cv2_VideoCapture C vp (ext w) = (inr (Some frames), x) →
  fs w !! path_parent C dp = Some (File c) →
  process_video C vp width height dp win w
  = (inl (FileExistsError (path_parent C dp)), set_cap true (set_ext x w),
     [EvPathExists vp; EvVideoCapture vp; EvIsOpened;
      EvMakedirs (path_parent C dp)]).
Proof.
  intros Hex Hcap Hfile.
  unfold process_video, mbind, M_bind, Path_exists, VideoCapture, cap_isOpened,
    os_makedirs.
  rewrite Hex. simpl. rewrite Hcap. simpl. by rewrite Hfile.
Qed.

End Paths.

(** ** The shape of the log across a run *)

Section LogShape.

Context {X image : Type} (C : collaborators X image).
Implicit Types (w : world X) (t : list (event image)).

Lemma regular_insert_dir (files : gmap string node) d p :
  files !! d = None → regular (<[d := Dir]> files) p = regular files p.
Proof.
  intros Hfree. unfold regular. destruct (decide (d = p)) as [<-|Hne].
  - by rewrite lookup_insert_eq, Hfree.
  - by rewrite lookup_insert_ne.
Qed.

Lemma setdefault_append_dict records key x records' :
  setdefault_append records key x = inr records' →
  ∃ d d', records = PDict d ∧ records' = PDict d'.
Proof.
  intros Ha. destruct (setdefault_append_inv _ _ _ _ Ha) as (d & d' & _ & -> & -> & _).
  eauto.
Qed.

Lemma log_keys_outcome dp key v w r w' t :
  log_outcome (image := image) dp key v w r w' t →
  log_keys (fs w) dp `prefix_of` log_keys (fs w') dp.
Proof.
  intros Hout. unfold log_keys, regular. inversion Hout; subst; simpl; try done.
  - match goal with Hfree : fs w !! dp = None |- _ => rewrite Hfree end.
    apply prefix_nil.
  - match goal with
    | Happ : setdefault_append _ _ _ = inr _ |- _ =>
        destruct (setdefault_append_dict _ _ _ _ Happ) as (d & d' & -> & ->);
        apply setdefault_append_keys in Happ as Hkeys
    end.
    match goal with Hold : fs w !! dp = Some _ |- _ => rewrite Hold end.
    rewrite lookup_insert_eq, Hkeys. by apply prefix_app_r.
Qed.

(** X2. The keys of the log keep their order: a logging step that returns
    leaves the keys it found, followed by the key of its person when that
    person had no entry; and the keys a run finds are a prefix of the keys
    it leaves. *)
Theorem log_key_order dp :
  (∀ idx v w w' t,
     log_person (image := image) dp idx v w = (inr tt, w', t) →
     log_keys (fs w') dp
     = log_keys (fs w) dp
       ++ match log_lookup (fs w) dp (py_str (idx + 1)) with
          | Some _ => []
          | None => [py_str (idx + 1)]
          end)
  ∧ (∀ vp width height win w r w' t,
       process_video C vp width height dp win w = (r, w', t) →
       log_keys (fs w) dp `prefix_of` log_keys (fs w') dp).
Proof.
  split; [apply log_person_keys|].
  intros vp width height win w r w' t Hrun.
  pose proof (process_video_files C dp
                (λ f _ f', log_keys f dp `prefix_of` log_keys f' dp)) as Hwp.
  specialize (Hwp (λ f _ _, reflexivity _)).
  specialize (Hwp (λ f1 _ f2 _ f3 H12 H23, transitivity H12 H23)).
  specialize (Hwp (λ key v w0 r0 w1 t0, log_keys_outcome dp key v w0 r0 w1 t0)).
  assert (Hdir : ∀ files : gmap string node,
            files !! path_parent C dp = None →
            log_keys files dp
            `prefix_of` log_keys (<[path_parent C dp := Dir]> files) dp).
  { intros files Hfree. unfold log_keys. by rewrite regular_insert_dir. }
  specialize (Hwp Hdir vp width height win w).
  unfold wp in Hwp. by rewrite Hrun in Hwp.
Qed.







End LogShape.

(** ** The quit key *)

Section QuitKey.

Context {X image : Type} (C : collaborators X image).
Implicit Types (w : world X) (t : list (event image)).

Lemma low_byte_is_q key :
  (Z.land key 255 =? 113) = true ↔ key `mod` 256 = 113.
Proof.
  rewrite Z.eqb_eq. change 255 with (Z.ones 8).
  rewrite Z.land_ones by lia. by change (2 ^ 8) with 256.
Qed.

(** X7. An iteration that completes ends with the poll of the keyboard, and
    asks to quit exactly when the low byte of the polled code is that of
    "q": 113, so also 113 + 256 k and not -1 (no key).  When it asks to
    quit, the loop returns at once: the frames still in the stream are not
    read. *)
Theorem quit_key_decoded width height dp win frame :
  (∀ w quit w' t,
     iteration C width height dp win frame w = (inr quit, w', t) →
     ∃ key x,
       cv2_waitKey C 1 x = (inr key, ext w')
       ∧ (quit = true ↔ key `mod` 256 = 113)
       ∧ last t = Some EvWaitKey)
  ∧ (∀ w w' t rest,
       cap_opened w = true →
       iteration C width height dp win frame w = (inr true, w', t) →
       while_loop C width height dp win (frame :: rest) w
       = (inr tt, w', [EvIsOpened; EvRead true] ++ t)).
Proof.
  split.
  - intros w quit w' t Hrun. revert quit Hrun.
    cut (∀ r, iteration C width height dp win frame w = (r, w', t) →
              ∀ quit, r = inr quit →
              ∃ key x,
                cv2_waitKey C 1 x = (inr key, ext w')
                ∧ (quit = true ↔ key `mod` 256 = 113)
                ∧ last t = Some EvWaitKey).
    { eauto. }
    intros r Hrun. wp_start Hrun. unfold iteration. wp_steps; try done.
    apply wp_any. intros [e|g] w1 t1; [done|]. wp_steps; try done.
    intros quit [= <-].
    match goal with
    | Hkey : cv2_waitKey _ _ ?x0 = (inr ?k, _) |- _ => exists k, x0
    end.
    split; [done|]. split; [apply low_byte_is_q|].
    simpl. rewrite !last_cons, last_app. done.
  - intros w w' t rest Hopen Hrun. simpl.
    unfold mbind, M_bind, cap_isOpened, emit. rewrite Hopen. simpl.
    rewrite Hrun. unfold mret, M_ret. simpl. by rewrite app_nil_r.
Qed.

End QuitKey.

(** The quit key with a modifier bit set, on the first of two frames. *)
Lemma quit_key_decoded_witness :
  let w := World [113 + 256] Demo.disk true in
  let out :=
    iteration Demo.collab 1200 400 Demo.data_path "Emotion Detection"
      Demo.blank_frame w in
  out.1.1 = inr true
  ∧ while_loop Demo.collab 1200 400 Demo.data_path "Emotion Detection"
      [Demo.blank_frame; Demo.blank_frame] w
    = (inr tt, out.1.2, [EvIsOpened; EvRead true] ++ out.2)
  ∧ count is_frame_read
      (while_loop Demo.collab 1200 400 Demo.data_path "Emotion Detection"
         [Demo.blank_frame; Demo.blank_frame] w).2 = 1%nat.
Proof.
  intros w out.
  destruct (quit_key_decoded Demo.collab 1200 400 Demo.data_path
              "Emotion Detection" Demo.blank_frame) as [_ Hstop].
  assert (Hloop := Hstop w out.1.2 out.2 [Demo.blank_frame] eq_refl).
  split; [vm_compute; reflexivity|]. split.
  - apply Hloop. vm_compute. reflexivity.
  - rewrite Hloop by (vm_compute; reflexivity). vm_compute. reflexivity.
Defined.

(** ** Frames read and frames shown *)

Section Frames.

Context {X image : Type} (C : collaborators X image).
Implicit Types (w : world X) (t : list (event image)).

Lemma count_disjoint (f g : event image → bool) t :
  Forall (λ ev, g ev = true) t → (∀ ev, g ev = true → f ev = false) →
  count f t = 0%nat.
Proof.
  intros Hall Hdis. apply count_zero_In. intros ev Hin.
  apply Hdis. rewrite Forall_forall in Hall. apply Hall.
  by apply list_elem_of_In.
Qed.

Ltac plots := cbn beta iota in *; rewrite ?Forall_app;
  repeat split; try done; by repeat constructor.

(** The plotting part of an iteration only renders, resizes, tiles and logs. *)
Lemma person_body_plots dp n idx v w :
  wp (person_body C dp n idx v) w (λ _ _ t, Forall (λ ev, is_plot_event ev = true) t).
Proof. unfold person_body. wp_steps; plots. Qed.

Lemma for_persons_plots_only dp n items : ∀ graphs w,
  wp (for_persons C dp n items graphs) w
    (λ _ _ t, Forall (λ ev, is_plot_event ev = true) t).
Proof.
  induction items as [|[idx v] items IH]; intros graphs w; simpl.
  - wp_steps; plots.
  - wp_step. wp_use person_body_plots. intros [e|g] w1 t1 Hfst; [done|].
    wp_use IH. intros r w2 t2 Hsnd. plots.
Qed.

Lemma emotion_graph_plots dp emots w :
  wp (emotion_graph C dp emots) w
    (λ _ _ t, Forall (λ ev, is_plot_event ev = true) t).
Proof.
  unfold emotion_graph. destruct emots as [|item emots].
  - wp_steps; plots.
  - wp_step. wp_use for_persons_plots_only.
    intros [e|graphs] w1 t1 Hfst; [done|].
    wp_step; [wp_steps|destruct graphs; wp_steps]; plots.
Qed.

Ltac tidy := count_simpl; simpl; repeat split; (done || lia).

(** An iteration reads no frame; it shows at most one image, and exactly
    one if it completes. *)
Lemma iteration_shows width height dp win frame w :
  wp (iteration C width height dp win frame) w (λ r _ t,
    count is_frame_read t = 0%nat ∧ count is_stream_end t = 0%nat
    ∧ (count is_imshow t ≤ 1)%nat
    ∧ (∀ q, r = inr q → count is_imshow t = 1%nat)).
Proof.
  unfold iteration. wp_steps; try tidy.
  wp_use emotion_graph_plots. intros [e|g] w1 t1 Hplot;
    pose proof (count_disjoint is_frame_read is_plot_event t1 Hplot) as Hr;
    pose proof (count_disjoint is_stream_end is_plot_event t1 Hplot) as He;
    pose proof (count_disjoint is_imshow is_plot_event t1 Hplot) as Hi;
    specialize (Hr ltac:(by intros [])); specialize (He ltac:(by intros []));
    specialize (Hi ltac:(by intros [])).
  - count_simpl. rewrite Hr, He, Hi. simpl. repeat split; (done || lia).
  - wp_steps; count_simpl; rewrite Hr, He, Hi; simpl;
      repeat split; (done || lia).
Qed.

Lemma while_loop_shows width height dp win frames : ∀ w,
  wp (while_loop C width height dp win frames) w (λ r _ t,
    (count is_frame_read t ≤ length frames)%nat
    ∧ (count is_imshow t ≤ count is_frame_read t)%nat
    ∧ (count is_frame_read t ≤ count is_imshow t + 1)%nat
    ∧ (∀ a, r = inr a → count is_imshow t = count is_frame_read t)
    ∧ (count is_stream_end t ≠ 0%nat → count is_frame_read t = length frames)
    ∧ (count is_stream_end t ≤ 1)%nat).
Proof.
  induction frames as [|frame frames IH]; intros w; simpl.
  - wp_steps; tidy.
  - wp_steps; try tidy.
    wp_use iteration_shows. intros [e|[]] w1 t1 (Hr & He & Hle & Hone).
    + count_simpl. rewrite Hr, He. simpl. repeat split; (done || lia).
    + specialize (Hone true eq_refl). wp_steps. count_simpl.
      rewrite Hr, He, Hone. simpl. repeat split; (done || lia).
    + specialize (Hone false eq_refl).
      wp_use IH. intros r w2 t2 (H1 & H2 & H3 & H4 & H5 & H6).
      count_simpl. rewrite Hr, He, Hone. simpl.
      split; [lia|]. split; [lia|]. split; [lia|]. split.
      * intros a Ha. rewrite (H4 a Ha). lia.
      * split; [|lia]. intros Hne. rewrite H5; [done|lia].
Qed.

(** X8. Frames are read at most once each and shown as they are read.  In a
    run over a stream of [frames], at most [length frames] frames are read;
    every frame read but possibly the last one has been shown; a run that
    returns has shown every frame it read; and the end of the stream is
    found at most once, only after every frame was read. *)
Theorem frames_read_and_shown vp width height dp win w frames x r w' t :
  cv2_VideoCapture C vp (ext w) = (inr (Some frames), x) →
  process_video C vp width height dp win w = (r, w', t) →
  (count is_frame_read t ≤ length frames)%nat
  ∧ (count is_imshow t ≤ count is_frame_read t)%nat
  ∧ (count is_frame_read t ≤ count is_imshow t + 1)%nat
  ∧ (r = inr tt → count is_imshow t = count is_frame_read t)
  ∧ (count is_stream_end t ≠ 0%nat → count is_frame_read t = length frames)
  ∧ (count is_stream_end t ≤ 1)%nat.
Proof.
  intros Hcap Hrun. wp_start Hrun. unfold process_video.
  do 3 wp_step; [wp_steps; tidy|].
  wp_step. unfold wp at 1, VideoCapture. rewrite Hcap. cbn [fst snd]. wp_simpl.
  do 3 wp_step; [wp_steps; tidy|].
  wp_step. apply wp_os_makedirs. intros [e|[]] files Hreg; wp_simpl; [tidy|].
  wp_step. wp_use while_loop_shows.
  intros [e|[]] w2 t2 (H1 & H2 & H3 & H4 & H5 & H6); wp_simpl.
  - count_simpl. simpl. repeat split; (done || lia).
  - specialize (H4 tt eq_refl). do 2 wp_step. apply wp_extern.
    intros r0 x0 Hx. count_simpl. simpl. rewrite !Nat.add_0_r.
    repeat split; (done || lia).
Qed.

End Frames.

(** Two frames, no key: both are read and shown, then the stream ends. *)
Lemma frames_read_and_shown_witness :
  let w := Demo.start [] Demo.disk in
  let out := Demo.run "nobody.mp4" w in
  out.1.1 = inr tt
  ∧ count is_frame_read out.2 = 2%nat
  ∧ count is_imshow out.2 = count is_frame_read out.2
  ∧ count is_stream_end out.2 = 1%nat.
Proof.
  intros w out.
  destruct (frames_read_and_shown Demo.collab "nobody.mp4" 1200 400
              Demo.data_path "Emotion Detection" w
              [Demo.blank_frame; Demo.blank_frame] [] out.1.1 out.1.2 out.2)
    as (_ & _ & _ & Hshown & Hend & _); try (vm_compute; reflexivity).
  assert (Hret : out.1.1 = inr tt) by (vm_compute; reflexivity).
  split; [exact Hret|]. split; [|split; [exact (Hshown Hret)|]].
  - apply Hend. vm_compute. discriminate.
  - vm_compute. reflexivity.
Defined.

(** ** What is rendered and what is shown *)

Section Rendering.

Context {X image : Type} (C : collaborators X image).
Implicit Types (w : world X) (t : list (event image)).







End Rendering.



(** A log that starts with the key "7": person 0 is logged after it. *)
Lemma log_key_order_witness :
  let w := Demo.start []
             (<[Demo.data_path := File (Json (PDict [("7", PList [])]))]> Demo.disk) in
  let out := Demo.run "solo.mp4" w in
  log_keys (fs w) Demo.data_path = ["7"]
  ∧ log_keys (fs w) Demo.data_path `prefix_of` log_keys (fs out.1.2) Demo.data_path
  ∧ log_keys (fs out.1.2) Demo.data_path = ["7"; "1"].
Proof.
  intros w out.
  destruct (log_key_order Demo.collab Demo.data_path) as [_ Hrun].
  split; [vm_compute; reflexivity|]. split; [|vm_compute; reflexivity].
  apply (Hrun "solo.mp4" 1200 400 "Emotion Detection" w out.1.1 out.1.2 out.2).
  vm_compute. reflexivity.
Defined.



(** No faces and no "uploads" directory yet: the run makes it. *)
Lemma log_directory_made_witness :
  let w := Demo.start [] (delete "uploads" Demo.disk) in
  let out := Demo.run "nobody.mp4" w in
  fs w !! "uploads" = None
  ∧ count is_write out.2 = 0%nat
  ∧ fs out.1.2 !! "uploads" = Some Dir.
Proof.
  intros w out. split; [vm_compute; reflexivity|].
  split; [vm_compute; reflexivity|].
  apply (log_directory_made Demo.collab "nobody.mp4" 1200 400 Demo.data_path
           "Emotion Detection" w out.1.1 out.1.2 out.2).
  - vm_compute. reflexivity.
  - vm_compute. discriminate.
Defined.

(** "uploads" is a regular file: the run stops at [os.makedirs]. *)
Lemma log_directory_is_a_file_witness :
  let w := Demo.start [] (<["uploads" := File (Text "x")]> Demo.disk) in
  Demo.run "solo.mp4" w
  = (inl (FileExistsError "uploads"), set_cap true w,
     [EvPathExists "solo.mp4"; EvVideoCapture "solo.mp4"; EvIsOpened;
      EvMakedirs "uploads"]).
Proof.
  intros w.
  apply (log_directory_is_a_file Demo.collab "solo.mp4" 1200 400 Demo.data_path
           "Emotion Detection" w
           [Demo.DemoImage 480 640 [(0, Demo.happy)];
            Demo.DemoImage 480 640 [(0, Demo.sad)]] [] (Text "x"));
    reflexivity.
Defined.

(** ** How the loop ends, and when a frame is logged *)

Section LoopExit.

Context {X image : Type} (C : collaborators X image).
Implicit Types (w : world X) (t : list (event image)).

Lemma iteration_ends_with_poll width height dp win frame w :
  wp (iteration C width height dp win frame) w (λ r _ t,
    ∀ q, r = inr q → last t = Some EvWaitKey).
Proof.
  unfold iteration. wp_steps; try done.
  apply wp_any. intros [e|g] w1 t1; [done|]. wp_steps; try done.
  intros q _. simpl. by rewrite !last_cons, last_app.
Qed.

Ltac closed_handle Hopen :=
  match goal with
  | Hb : negb (cap_opened _) = true |- _ => by rewrite Hopen in Hb
  end.

Lemma while_loop_exit width height dp win frames : ∀ w,
  cap_opened w = true →
  wp (while_loop C width height dp win frames) w (λ r _ t,
    ∀ a, r = inr a → last t = Some (EvRead false) ∨ last t = Some EvWaitKey).
Proof.
  induction frames as [|frame frames IH]; intros w Hopen; simpl.
  - wp_steps; [closed_handle Hopen|]. intros _ _. by left.
  - wp_steps; [closed_handle Hopen|].
    eapply wp_mono;
      [apply wp_conj;
         [apply iteration_ends_with_poll|apply (iteration_no_cleanup C)]|].
    intros [e|[]] w1 t1 [Hpoll [_ Hcap]]; wp_simpl; [done| |].
    + wp_steps. intros _ _. right. rewrite app_nil_r.
      by rewrite !last_cons, (Hpoll true eq_refl).
    + assert (Hopen1 : cap_opened w1 = true) by congruence.
      wp_use (IH w1 Hopen1). intros r w2 t2 Hrest a Ha.
      destruct (Hrest a Ha) as [Hl|Hl];
        rewrite !last_cons, (last_app t1 t2), Hl; auto.
Qed.

(** X11. A run that returns has left the loop because the stream was exhausted
    or because the quit key was polled: the call before the release of the
    handle is the failed read or the poll of the keyboard, never the test of
    the handle. *)
Theorem loop_exits_by_end_or_quit vp width height dp win w w' t :
  process_video C vp width height dp win w = (inr tt, w', t) →
  ∃ pre, t = pre ++ [EvRelease; EvDestroyAllWindows]
         ∧ (last pre = Some (EvRead false) ∨ last pre = Some EvWaitKey).
Proof.
  intros Hrun.
  cut (∀ r, process_video C vp width height dp win w = (r, w', t) →
            r = inr tt →
            ∃ pre, t = pre ++ [EvRelease; EvDestroyAllWindows]
                   ∧ (last pre = Some (EvRead false) ∨ last pre = Some EvWaitKey)).
  { eauto. }
  clear Hrun. intros r Hrun. wp_start Hrun. unfold process_video.
  do 3 wp_step; [wp_steps; done|].
  wp_step. apply wp_VideoCapture. intros [e|frames] w1 Hfs; wp_simpl; [done|].
  do 3 wp_step; [wp_steps; done|].
  wp_step. apply wp_os_makedirs. intros [e|[]] files Hreg; wp_simpl; [done|].
  wp_step.
  assert (Hopen : cap_opened (set_fs files w1) = true).
  { simpl. by destruct (cap_opened w1). }
  wp_use (while_loop_exit width height dp win frames _ Hopen).
  intros [e|[]] w2 t2 Hexit; [done|]. specialize (Hexit tt eq_refl).
  do 2 wp_step. apply wp_extern. intros r0 x Hx _.
  exists (EvPathExists vp :: EvVideoCapture vp :: EvIsOpened
          :: EvMakedirs (path_parent C dp) :: t2).
  split; [reflexivity|].
  destruct Hexit as [Hl|Hl]; rewrite !last_cons, Hl; auto.
Qed.


End LoopExit.

(** The stream of "nobody.mp4" ends and the run returns. *)
Lemma loop_exits_by_end_or_quit_witness :
  let out := Demo.run "nobody.mp4" (Demo.start [] Demo.disk) in
  out.1.1 = inr tt
  ∧ ∃ pre, out.2 = pre ++ [EvRelease; EvDestroyAllWindows]
           ∧ (last pre = Some (EvRead false) ∨ last pre = Some EvWaitKey).
Proof.
  intros out. split; [vm_compute; reflexivity|].
  apply (loop_exits_by_end_or_quit Demo.collab "nobody.mp4" 1200 400
           Demo.data_path "Emotion Detection" (Demo.start [] Demo.disk) out.1.2).
  vm_compute. reflexivity.
Defined.

